(** * regs-insight-local: a model of server.js

    The server is an Express application over a MySQL database and a local
    upload directory.  Every handler validates its input, runs at most two SQL
    statements and answers with JSON.  The development below embeds

    - the text operations the handlers and their SQL rely on (JavaScript
      truthiness, [split], [String], POSIX path helpers, the comparison of
      [VARCHAR] columns under the case-insensitive collations of the schema,
      and the [LIKE] operator),
    - the two tables and the upload directory as finite maps,
    - the handlers as programs of a small state-and-exception monad, with the
      [try]/[catch] blocks of the source written out.

    Modelling conventions.  Text is ASCII; the [_ci] collation is case folding
    of the letters A-Z, and spaces at the end of a text count.  Paths are
    POSIX paths, joined and normalised as the [path] module of Node does;
    the disk holds regular files under their normalised absolute paths.
    Column length limits, date parsing and console output are outside the
    model; the id in the path of a delete request is the integer it denotes.
    Time is the clock of the process in milliseconds; the libraries [bcrypt]
    and [jsonwebtoken] are parameters of the model. *)

From Stdlib Require Import ZArith Ascii String.
From stdpp Require Import base tactics option list strings pretty gmap sorting.

Local Open Scope string_scope.
Local Open Scope Z_scope.

(** ** JavaScript values that the handlers test or convert *)

(** [if (x)] on a value that is a string or [undefined]: the empty string and
    [undefined] are falsy. *)
Definition truthy (x : option string) : bool :=
  match x with
  | Some (String _ _) => true
  | _ => false
  end.

(** [x || null] on such a value. *)
Definition or_null (x : option string) : option string :=
  if truthy x then x else None.

(** [x || d] with a string [d]. *)
Definition or_else (x : option string) (d : string) : string :=
  if truthy x then default d x else d.

(** [String(n)] for an integer and [String(v)] for a nullable integer column
    ([String(null)] is the four letters [null]). *)
Definition String_of_int (n : Z) : string := pretty n.

Definition String_of_nullable (v : option Z) : string :=
  match v with
  | Some n => String_of_int n
  | None => "null"
  end.

(** [s.split(sep)] for a one-character separator: every occurrence of the
    separator ends a part, so the number of parts is one more than the
    number of separators. *)
Fixpoint split (sep : ascii) (s : string) : list string :=
  match s with
  | EmptyString => [EmptyString]
  | String c s' =>
      if decide (c = sep) then EmptyString :: split sep s'
      else match split sep s' with
           | p :: ps => String c p :: ps
           | [] => [String c EmptyString]
           end
  end.

(** [s.replace(/\\\\/g, "/")]: every pair of backslashes, from the left. *)
Fixpoint replace_double_backslashes (s : string) : string :=
  match s with
  | EmptyString => EmptyString
  | String c s' =>
      match s' with
      | String c' s'' =>
          if decide (c = "\"%char ∧ c' = "\"%char)
          then String "/"%char (replace_double_backslashes s'')
          else String c (replace_double_backslashes s')
      | EmptyString => s
      end
  end.

(** [s.replace(/\\/g, "/")]: every backslash. *)
Fixpoint replace_backslashes (s : string) : string :=
  match s with
  | EmptyString => EmptyString
  | String c s' =>
      String (if decide (c = "\"%char) then "/"%char else c)
             (replace_backslashes s')
  end.

(** ** POSIX paths *)

Definition is_absolute (p : string) : bool :=
  match p with
  | String "/"%char _ => true
  | _ => false
  end.

(** Whether the last character of [s] is [c]. *)
Fixpoint ends_with (c : ascii) (s : string) : bool :=
  match s with
  | EmptyString => false
  | String d EmptyString => bool_decide (d = c)
  | String _ s' => ends_with c s'
  end.

(** One round of the loop of [normalizeString], which reads a path segment
    by segment: an empty segment and [.] are skipped, [..] removes the
    segment before it, or is kept when there is none to remove and the path
    may climb above its start, and every other segment is kept.  [kept]
    holds the segments kept so far, the last one first. *)
Definition normalize_segment (allowAboveRoot : bool) (kept : list string)
    (segment : string) : list string :=
  if bool_decide (segment = "" ∨ segment = ".") then kept
  else if bool_decide (segment = "..") then
    match kept with
    | last :: rest =>
        if bool_decide (last = "..")
        then if allowAboveRoot then ".." :: kept else kept
        else rest
    | [] => if allowAboveRoot then [".."] else []
    end
  else segment :: kept.

Definition normalize_segments (allowAboveRoot : bool) (segments : list string)
  : list string :=
  reverse (foldl (normalize_segment allowAboveRoot) [] segments).

(** [normalizeString(path, allowAboveRoot, "/")]. *)
Definition normalizeString (path : string) (allowAboveRoot : bool) : string :=
  String.concat "/" (normalize_segments allowAboveRoot (split "/" path)).

(** [path.normalize(p)]: the empty path is [.]; a leading and a trailing
    slash are kept. *)
Definition path_normalize (p : string) : string :=
  if bool_decide (p = "") then "."
  else
    let body := normalizeString p (negb (is_absolute p)) in
    if bool_decide (body = "")
    then if is_absolute p then "/" else if ends_with "/" p then "./" else "."
    else (if is_absolute p then "/" else "")
         +:+ body +:+ (if ends_with "/" p then "/" else "").

(** [path.join(a, b)]: the arguments that are not empty, with a slash
    between them, normalised. *)
Definition path_join (a b : string) : string :=
  path_normalize
    (if bool_decide (a = "") then b
     else if bool_decide (b = "") then a
     else a +:+ "/" +:+ b).

(** The segments of [path.resolve(p)] below the root.  [path.resolve] puts
    the working directory of the process before a relative [p]; every path
    that the server resolves starts with [__dirname], which Node gives as an
    absolute path, and the model resolves a relative path against the
    root. *)
Definition path_resolve (p : string) : list string :=
  normalize_segments false (split "/" p).

(** The way from one resolved path to another: past their common segments,
    one [..] for every segment left of [from], then what is left of [to]. *)
Fixpoint path_difference (from to : list string) : list string :=
  match from, to with
  | f :: from', t :: to' =>
      if decide (f = t) then path_difference from' to'
      else (replicate (length from) ".." ++ to)%list
  | _, _ => (replicate (length from) ".." ++ to)%list
  end.

(** [path.relative(from, to)]. *)
Definition path_relative (from to : string) : string :=
  String.concat "/" (path_difference (path_resolve from) (path_resolve to)).

(** The part of [s] after its last [sep], or [s] itself. *)
Fixpoint after_last (sep : ascii) (s : string) : string :=
  match s with
  | EmptyString => EmptyString
  | String c s' =>
      if bool_decide (sep ∈ list_ascii_of_string s') then after_last sep s'
      else if decide (c = sep) then s'
      else s
  end.

(** The suffix of [s] that starts at its last [sep], if there is one. *)
Fixpoint from_last (sep : ascii) (s : string) : option string :=
  match s with
  | EmptyString => None
  | String c s' =>
      match from_last sep s' with
      | Some r => Some r
      | None => if decide (c = sep) then Some s else None
      end
  end.

(** [s] without the separators at its end. *)
Fixpoint strip_trailing (sep : ascii) (s : string) : string :=
  match s with
  | EmptyString => EmptyString
  | String c s' =>
      match strip_trailing sep s' with
      | EmptyString => if decide (c = sep) then EmptyString else String c EmptyString
      | r => String c r
      end
  end.

(** [path.extname(p)]: trailing slashes apart, the suffix of the base name
    from its last dot on; empty when there is no dot, when the only dot opens
    the base name, and for the base name of two dots. *)
Definition extname (p : string) : string :=
  let base := after_last "/"%char (strip_trailing "/"%char p) in
  match from_last "."%char base with
  | None => EmptyString
  | Some ext =>
      if bool_decide (String.length ext = String.length base) then EmptyString
      else if bool_decide (base = "..") then EmptyString
      else ext
  end.

(** ** Text columns under the collation of the schema *)

(** The tables are created with [DEFAULT CHARSET=utf8mb4]; the default
    collations of that character set compare letters without regard to case.
    [fold_case] is the weight of a character. *)
Definition fold_case (c : ascii) : ascii :=
  let n := N_of_ascii c in
  if ((65 <=? n) && (n <=? 90))%N then ascii_of_N (n + 32) else c.

Definition ci_eqb (a b : ascii) : bool :=
  bool_decide (fold_case a = fold_case b).

(** [a = b] on two texts. *)
Fixpoint collate_eqb (a b : string) : bool :=
  match a, b with
  | EmptyString, EmptyString => true
  | String x a', String y b' => ci_eqb x y && collate_eqb a' b'
  | _, _ => false
  end.

(** [text LIKE pattern]: [%] stands for any run of characters, [_] for any
    single one, a backslash makes the next pattern character literal, and
    every other character compares under the collation. *)
Fixpoint like (pattern : string) : string → bool :=
  match pattern with
  | EmptyString => λ text, bool_decide (text = EmptyString)
  | String p rest =>
      if decide (p = "%"%char) then
        fix any_suffix (text : string) : bool :=
          like rest text ||
          match text with
          | EmptyString => false
          | String _ text' => any_suffix text'
          end
      else if decide (p = "_"%char) then
        λ text, match text with
                | EmptyString => false
                | String _ text' => like rest text'
                end
      else if decide (p = "\"%char) then
        match rest with
        | EmptyString =>
            λ text, match text with
                    | String c EmptyString => ci_eqb p c
                    | _ => false
                    end
        | String q rest' =>
            λ text, match text with
                    | EmptyString => false
                    | String c text' => ci_eqb q c && like rest' text'
                    end
        end
      else
        λ text, match text with
                | EmptyString => false
                | String c text' => ci_eqb p c && like rest text'
                end
  end.

(** A comparison with a [NULL] column is not true. *)
Definition sql_eq (column : option string) (v : string) : bool :=
  from_option (λ c, collate_eqb c v) false column.

(** [column = v] on a [DATE] column, dates in the form [YYYY-MM-DD]. *)
Definition sql_date_eq (column : option string) (v : string) : bool :=
  from_option (λ c, bool_decide (c = v)) false column.

(** ** What the search claim calls a case-insensitive substring *)

Fixpoint ci_prefix (q text : string) : bool :=
  match q, text with
  | EmptyString, _ => true
  | String x q', String y text' => ci_eqb x y && ci_prefix q' text'
  | String _ _, EmptyString => false
  end.

Fixpoint ci_substring (q text : string) : bool :=
  ci_prefix q text ||
  match text with
  | EmptyString => false
  | String _ text' => ci_substring q text'
  end.

(** Characters that [LIKE] does not read literally. *)
Definition like_special (c : ascii) : bool :=
  bool_decide (c = "%"%char ∨ c = "_"%char ∨ c = "\"%char).

Fixpoint like_plain (q : string) : bool :=
  match q with
  | EmptyString => true
  | String c q' => negb (like_special c) && like_plain q'
  end.

(** ** The platform: configuration and libraries *)

(** The claims signed into a token: [{ id, email }], to which [jwt.sign] adds
    the issue time [iat] and the expiry [exp], both in seconds. *)
Record jwt_payload := {
  jwt_id : Z;
  jwt_email : string;
  jwt_iat : Z;
  jwt_exp : Z
}.

(** [__dirname] and [JWT_SECRET] are constants of the process.  [bcrypt] and
    the signature scheme of [jsonwebtoken] are libraries: [jwt_encode] builds
    the compact serialisation of a payload under a secret, [jwt_decode]
    parses a serialisation and checks its signature. *)
Class Platform := {
  __dirname : string;
  JWT_SECRET : string;
  bcrypt_hash : string → nat → string → string;
  bcrypt_compare : string → string → bool;
  jwt_encode : jwt_payload → string → string;
  jwt_decode : string → string → option jwt_payload
}.

(** ** Stored state *)

(** Rows as the program writes them: a column that every [INSERT] of the
    program fills is a plain value, a column that it may leave [NULL], or that
    the foreign key may set to [NULL], is an option. *)
Record user := {
  user_name : option string;
  user_email : string;
  user_password_hash : string;
  user_created_at : Z
}.

Record document := {
  user_id : option Z;
  document_name : string;
  document_type : option string;
  document_date : option string;
  file_path : string;
  original_filename : string;
  created_at : Z
}.

(** The pool handle that [mysql.createPool] returns. *)
Record Pool := {
  pool_host : string;
  pool_port : Z;
  connectionLimit : nat
}.

(** [pool] is the variable of the process; [tables_exist], the two tables
    with their [AUTO_INCREMENT] counters belong to the database; [files]
    holds the regular files of the disk, from normalised absolute path to
    content. *)
Record state := {
  pool : option Pool;
  tables_exist : bool;
  users : gmap Z user;
  next_user_id : Z;
  documents : gmap Z document;
  next_document_id : Z;
  files : gmap string string
}.

Definition set_pool (p : option Pool) (s : state) : state :=
  {| pool := p; tables_exist := tables_exist s; users := users s;
     next_user_id := next_user_id s; documents := documents s;
     next_document_id := next_document_id s; files := files s |}.

Definition set_tables_exist (b : bool) (s : state) : state :=
  {| pool := pool s; tables_exist := b; users := users s;
     next_user_id := next_user_id s; documents := documents s;
     next_document_id := next_document_id s; files := files s |}.

Definition set_users (u : gmap Z user) (n : Z) (s : state) : state :=
  {| pool := pool s; tables_exist := tables_exist s; users := u;
     next_user_id := n; documents := documents s;
     next_document_id := next_document_id s; files := files s |}.

Definition set_documents (d : gmap Z document) (n : Z) (s : state) : state :=
  {| pool := pool s; tables_exist := tables_exist s; users := users s;
     next_user_id := next_user_id s; documents := d;
     next_document_id := n; files := files s |}.

Definition set_files (f : gmap string string) (s : state) : state :=
  {| pool := pool s; tables_exist := tables_exist s; users := users s;
     next_user_id := next_user_id s; documents := documents s;
     next_document_id := next_document_id s; files := f |}.

(** What a request finds outside the process: the clock ([Date.now()], in
    milliseconds), the draw of [Math.random() * 1e9] rounded, the salt that
    [bcrypt] draws, whether the database answers and, when it does not, the
    message of the error with which the connection fails, and whether the
    disk refuses a write or an unlink. *)
Record env := {
  now_ms : Z;
  random : Z;
  salt : string;
  db_reachable : bool;
  connect_error : string;
  disk_write_fails : bool;
  unlink_fails : bool
}.

(** [Math.floor(Date.now() / 1000)]. *)
Definition now_s (e : env) : Z := now_ms e `div` 1000.

(** ** Exceptions and the handler monad *)

Inductive exn :=
| TypeError (msg : string)
| DbError (code : string)
| ConnectionError (message : string)
| LibError (msg : string)
| FsError (code : string).

Definition M (A : Type) : Type := state → (exn + A) * state.

Definition ret {A} (a : A) : M A := λ s, (inr a, s).

Definition bind {A B} (m : M A) (k : A → M B) : M B :=
  λ s, match m s with
       | (inr a, s') => k a s'
       | (inl e, s') => (inl e, s')
       end.

Definition throw {A} (e : exn) : M A := λ s, (inl e, s).

(** [try { body } catch (err) { handler }]. *)
Definition try_catch {A} (body : M A) (handler : exn → M A) : M A :=
  λ s, match body s with
       | (inr a, s') => (inr a, s')
       | (inl e, s') => handler e s'
       end.

Notation "'let*' x := m 'in' k" := (bind m (λ x, k))
  (at level 10, x name, m at level 100, k at level 200, only parsing).
Notation "'run' m 'then' k" := (bind m (λ _, k))
  (at level 10, m at level 100, k at level 200, only parsing).

(** ** Responses *)

Record search_row := {
  row_id : Z;
  row_document : document;
  uploaded_by : option string
}.

(** The JSON bodies that the handlers send. *)
Inductive body :=
| JError (error : string)
| JOk
| JSignup (token : string) (id : Z) (email : string)
| JLogin (token : string) (id : Z) (email : string) (name : option string)
| JDocuments (rows : list (Z * document))
| JSearch (rows : list search_row)
| JHealth (ok : bool) (db_connected : option bool) (error : option string)
| ExpressErrorPage.

Record response := {
  status : Z;
  sent : body
}.

(** [res.status(code).json(b)]; [res.json(b)] is [json 200 b]. *)
Definition json (code : Z) (b : body) : response :=
  {| status := code; sent := b |}.

(** What becomes of a request: a response, or an exception that no handler
    caught. *)
Inductive outcome :=
| Responded (r : response)
| Unhandled (e : exn).

Definition exn_message (e : exn) : string :=
  match e with
  | TypeError m => m
  | DbError c => c
  | ConnectionError m => m
  | LibError m => m
  | FsError c => c
  end.

(** ** The database *)

(** [pool.getConnection()] followed by [ping()]. *)
Definition pool_ping (e : env) : M unit :=
  λ s, match pool s with
       | None => (inl (TypeError "pool is undefined"), s)
       | Some _ =>
           if db_reachable e then (inr tt, s)
           else (inl (ConnectionError (connect_error e)), s)
       end.

(** [pool.query(sql, params)]: reading a property of the undefined [pool] is
    a [TypeError]; the driver rejects when the server does not answer or the
    tables are missing; otherwise the statement runs. *)
Definition pool_query {A} (e : env) (statement : M A) : M A :=
  λ s, match pool s with
       | None => (inl (TypeError "pool is undefined"), s)
       | Some _ =>
           if negb (db_reachable e)
           then (inl (ConnectionError (connect_error e)), s)
           else if negb (tables_exist s) then (inl (DbError "ER_NO_SUCH_TABLE"), s)
           else statement s
       end.

(** [INSERT INTO users (name, email, password_hash) VALUES (?, ?, ?)]:
    [email] is [UNIQUE] under the collation; the result is [insertId]. *)
Definition insert_user (e : env) (name : option string) (email hash : string)
  : M Z :=
  λ s,
    if existsb (λ r, collate_eqb (user_email r.2) email) (map_to_list (users s))
    then (inl (DbError "ER_DUP_ENTRY"), s)
    else
      let id := next_user_id s in
      let row := {| user_name := name; user_email := email;
                    user_password_hash := hash;
                    user_created_at := now_s e |} in
      (inr id, set_users (<[id := row]> (users s)) (id + 1) s).

(** [SELECT * FROM users WHERE email = ?]; an undefined parameter is sent as
    [NULL], which equals nothing. *)
Definition select_user_by_email (email : option string) : M (list (Z * user)) :=
  λ s,
    (inr (match email with
          | None => []
          | Some v =>
              filter (λ r, collate_eqb (user_email r.2) v = true)
                     (map_to_list (users s))
          end), s).

(** [INSERT INTO documents (...) VALUES (?, ?, ?, ?, ?, ?)]; [user_id]
    references [users(id)]. *)
Definition insert_document (e : env) (owner : Z) (name : string)
    (type date : option string) (path original : string) : M unit :=
  λ s,
    match users s !! owner with
    | None => (inl (DbError "ER_NO_REFERENCED_ROW_2"), s)
    | Some _ =>
        let id := next_document_id s in
        let row := {| user_id := Some owner; document_name := name;
                      document_type := type; document_date := date;
                      file_path := path; original_filename := original;
                      created_at := now_s e |} in
        (inr tt, set_documents (<[id := row]> (documents s)) (id + 1) s)
    end.

(** [ORDER BY created_at DESC]. *)
Definition newer_first (a b : Z * document) : Prop :=
  created_at b.2 ≤ created_at a.2.

Global Instance newer_first_dec a b : Decision (newer_first a b).
Proof. unfold newer_first. apply _. Defined.

(** [SELECT * FROM documents WHERE user_id = ? ORDER BY created_at DESC]. *)
Definition select_documents_by_user (owner : Z) : M (list (Z * document)) :=
  λ s,
    (inr (merge_sort newer_first
            (filter (λ r, user_id r.2 = Some owner)
                    (map_to_list (documents s)))), s).

(** [SELECT * FROM documents WHERE id = ?]; [id] is the primary key. *)
Definition select_document_by_id (id : Z) : M (list (Z * document)) :=
  λ s, (inr (from_option (λ d, [(id, d)]) [] (documents s !! id)), s).

(** [DELETE FROM documents WHERE id = ?]. *)
Definition delete_document (id : Z) : M unit :=
  λ s, (inr tt, set_documents (delete id (documents s)) (next_document_id s) s).

(** The conditions that the search handler appends to [WHERE 1=1], each with
    the parameters it pushes. *)
Inductive condition :=
| NameOrFilenameLike (pattern1 pattern2 : string)
| TypeEq (v : string)
| DateEq (v : string).

Definition holds (d : document) (c : condition) : bool :=
  match c with
  | NameOrFilenameLike p1 p2 =>
      like p1 (document_name d) || like p2 (original_filename d)
  | TypeEq v => sql_eq (document_type d) v
  | DateEq v => sql_date_eq (document_date d) v
  end.

(** [LEFT JOIN users u ON u.id = d.user_id], selecting [u.email]. *)
Definition join_uploader (us : gmap Z user) (r : Z * document) : search_row :=
  {| row_id := r.1; row_document := r.2;
     uploaded_by := user_id r.2 ≫= λ owner, user_email <$> us !! owner |}.

(** [SELECT d.*, u.email as uploaded_by FROM documents d LEFT JOIN users u ...
    WHERE 1=1 AND ... ORDER BY d.created_at DESC LIMIT 200]. *)
Definition select_search (conditions : list condition) : M (list search_row) :=
  λ s,
    (inr (join_uploader (users s) <$>
            take 200 (merge_sort newer_first
                        (filter (λ r, forallb (holds r.2) conditions = true)
                                (map_to_list (documents s))))), s).

(** ** Tokens *)

Section server.
Context {P : Platform}.

(** [jwt.sign({ id, email }, JWT_SECRET, { expiresIn: "12h" })]: the claims
    are stamped with the time of issue and an expiry twelve hours later,
    then signed. *)
Definition jwt_claims (e : env) (id : Z) (email : string) : jwt_payload :=
  {| jwt_id := id; jwt_email := email; jwt_iat := now_s e;
     jwt_exp := now_s e + 12 * 60 * 60 |}.

Definition jwt_sign (e : env) (id : Z) (email : string) : string :=
  jwt_encode (jwt_claims e id email) JWT_SECRET.

(** [jwt.verify(token, JWT_SECRET)]: the signature first, then the expiry,
    which has passed once the clock has reached [exp]. *)
Definition jwt_verify (e : env) (token : string) : M jwt_payload :=
  match jwt_decode token JWT_SECRET with
  | None => throw (LibError "JsonWebTokenError")
  | Some payload =>
      if bool_decide (jwt_exp payload ≤ now_s e)
      then throw (LibError "TokenExpiredError")
      else ret payload
  end.

(** ** The auth middleware *)

(** Either the response that ends the request, or the payload stored in
    [req.user] when [next()] is called. *)
Definition authMiddleware (e : env) (header : option string)
  : M (response + jwt_payload) :=
  if negb (truthy header) then ret (inl (json 401 (JError "Missing auth")))
  else
    let parts := split " "%char (default EmptyString header) in
    if bool_decide (length parts ≠ 2%nat)
    then ret (inl (json 401 (JError "Bad auth")))
    else
      let token := default EmptyString (parts !! 1%nat) in
      try_catch
        (let* payload := jwt_verify e token in ret (inr payload))
        (λ _, ret (inl (json 401 (JError "Invalid token")))).

(** A route [app.METHOD(path, authMiddleware, handler)]. *)
Definition authenticated (e : env) (header : option string)
    (handler : jwt_payload → M response) : M response :=
  let* checked := authMiddleware e header in
  match checked with
  | inl rejection => ret rejection
  | inr user => handler user
  end.

(** ** Handlers *)

Definition internal_error : response := json 500 (JError "internal").

(** [GET /api/health]. *)
Definition health (e : env) : M response :=
  try_catch
    (λ s,
       match pool s with
       | Some _ =>
           try_catch
             (run pool_ping e then
              ret (json 200 (JHealth true (Some true) None)))
             (λ err,
                ret (json 200 (JHealth true (Some false)
                                 (Some (exn_message err)))))
             s
       | None =>
           ret (json 200 (JHealth true (Some false) (Some "no-db-pool"))) s
       end)
    (λ err, ret (json 200 (JHealth false None (Some (exn_message err))))).

(** [POST /api/signup]. *)
Definition signup (e : env) (name email password : option string)
  : M response :=
  if negb (truthy email) || negb (truthy password)
  then ret (json 400 (JError "email/password required"))
  else
    let email' := default EmptyString email in
    let password' := default EmptyString password in
    try_catch
      (let hashed := bcrypt_hash password' 10%nat (salt e) in
       let* id := pool_query e (insert_user e (or_null name) email' hashed) in
       let token := jwt_sign e id email' in
       ret (json 200 (JSignup token id email')))
      (λ err,
         match err with
         | DbError code =>
             if bool_decide (code = "ER_DUP_ENTRY")
             then ret (json 400 (JError "User already exists"))
             else ret internal_error
         | _ => ret internal_error
         end).

(** [bcrypt.compare(password, hash)] rejects when [password] is undefined. *)
Definition bcrypt_compare_js (password : option string) (hash : string)
  : M bool :=
  match password with
  | Some p => ret (bcrypt_compare p hash)
  | None => throw (LibError "data and hash arguments required")
  end.

(** [POST /api/login]. *)
Definition login (e : env) (email password : option string) : M response :=
  try_catch
    (let* rows := pool_query e (select_user_by_email email) in
     match rows with
     | [] => ret (json 400 (JError "invalid"))
     | (id, user) :: _ =>
         let* ok := bcrypt_compare_js password (user_password_hash user) in
         if negb ok then ret (json 400 (JError "invalid"))
         else
           let token := jwt_sign e id (user_email user) in
           ret (json 200 (JLogin token id (user_email user) (user_name user)))
     end)
    (λ _, ret internal_error).

(** The file part of a multipart request, and what multer leaves in
    [req.file] once it has stored the part. *)
Record file_part := {
  originalname : string;
  content : string
}.

Record req_file := {
  path : string;
  req_originalname : string
}.

Definition UPLOAD_DIR : string := path_join __dirname "uploads".

(** The [filename] callback of the disk storage. *)
Definition filename (e : env) (file : file_part) : string :=
  let unique := String_of_int (now_ms e) +:+ "-" +:+ String_of_int (random e) in
  unique +:+ extname (originalname file).

(** [upload.single("file")]: the part, if there is one, is written below
    [UPLOAD_DIR] under the generated name. *)
Definition upload_single (e : env) (part : option file_part)
  : M (option req_file) :=
  match part with
  | None => ret None
  | Some file =>
      if disk_write_fails e then throw (FsError "EIO")
      else
        let p := path_join UPLOAD_DIR (filename e file) in
        λ s, (inr (Some {| path := p; req_originalname := originalname file |}),
              set_files (<[p := content file]> (files s)) s)
  end.

(** The handler of [POST /api/upload]. *)
Definition upload (e : env) (user : jwt_payload) (file : option req_file)
    (name type date : option string) : M response :=
  try_catch
    (let userId := jwt_id user in
     match file with
     | None => ret (json 400 (JError "file required"))
     | Some f =>
         let filePath :=
           replace_backslashes
             (replace_double_backslashes (path_relative __dirname (path f))) in
         run pool_query e
               (insert_document e userId (or_else name (req_originalname f))
                  (or_null type) (or_null date) filePath (req_originalname f))
         then ret (json 200 JOk)
     end)
    (λ _, ret (json 500 (JError "upload failed"))).

(** What [app.post("/api/upload", authMiddleware, upload.single("file"),
    handler)] runs behind the gate: the storage, then the handler; an error
    of the storage goes to the error handler of Express. *)
Definition upload_steps (e : env) (user : jwt_payload)
    (part : option file_part) (name type date : option string) : M response :=
  try_catch
    (let* file := upload_single e part in
     upload e user file name type date)
    (λ _, ret (json 500 ExpressErrorPage)).

Definition upload_route (e : env) (header : option string)
    (part : option file_part) (name type date : option string) : M response :=
  authenticated e header (λ user, upload_steps e user part name type date).

(** The handler of [GET /api/mydocs]. *)
Definition mydocs (e : env) (user : jwt_payload) : M response :=
  try_catch
    (let* rows := pool_query e (select_documents_by_user (jwt_id user)) in
     ret (json 200 (JDocuments rows)))
    (λ _, ret internal_error).

(** [fs.unlinkSync(p)]. *)
Definition unlinkSync (e : env) (p : string) : M unit :=
  λ s, match files s !! p with
       | None => (inl (FsError "ENOENT"), s)
       | Some _ =>
           if unlink_fails e then (inl (FsError "EPERM"), s)
           else (inr tt, set_files (delete p (files s)) s)
       end.

(** The handler of [DELETE /api/documents/:id]. *)
Definition delete_doc (e : env) (user : jwt_payload) (id : Z) : M response :=
  try_catch
    (let* rows := pool_query e (select_document_by_id id) in
     match rows with
     | [] => ret (json 404 (JError "not found"))
     | (_, doc) :: _ =>
         if bool_decide (String_of_nullable (user_id doc)
                         ≠ String_of_int (jwt_id user))
         then ret (json 403 (JError "forbidden"))
         else
           run (if bool_decide (file_path doc ≠ EmptyString)
                then try_catch
                       (unlinkSync e (path_join __dirname (file_path doc)))
                       (λ _, ret tt)
                else ret tt)
           then run pool_query e (delete_document id)
           then ret (json 200 JOk)
     end)
    (λ _, ret internal_error).

(** The conditions and parameters that [GET /api/search] builds from its
    query string. *)
Definition search_conditions (q type date : option string) : list condition :=
  (if truthy q
   then let q' := default EmptyString q in
        [NameOrFilenameLike ("%" +:+ q' +:+ "%") ("%" +:+ q' +:+ "%")]
   else [])
  ++ (if truthy type then [TypeEq (default EmptyString type)] else [])
  ++ (if truthy date then [DateEq (default EmptyString date)] else []).

(** [GET /api/search]. *)
Definition search (e : env) (q type date : option string) : M response :=
  try_catch
    (let* rows := pool_query e (select_search (search_conditions q type date)) in
     ret (json 200 (JSearch rows)))
    (λ _, ret internal_error).

(** ** The routes *)

Inductive request :=
| GetHealth
| PostSignup (name email password : option string)
| PostLogin (email password : option string)
| PostUpload (authorization : option string) (file : option file_part)
             (document_name document_type document_date : option string)
| GetMydocs (authorization : option string)
| DeleteDocument (authorization : option string) (id : Z)
| GetSearch (q type date : option string).

Definition route (e : env) (r : request) : M response :=
  match r with
  | GetHealth => health e
  | PostSignup name email password => signup e name email password
  | PostLogin email password => login e email password
  | PostUpload header part name type date =>
      upload_route e header part name type date
  | GetMydocs header => authenticated e header (mydocs e)
  | DeleteDocument header id =>
      authenticated e header (λ user, delete_doc e user id)
  | GetSearch q type date => search e q type date
  end.

Definition serve (e : env) (r : request) (s : state) : outcome * state :=
  match route e r s with
  | (inr response, s') => (Responded response, s')
  | (inl err, s') => (Unhandled err, s')
  end.

(** A session: requests served one after the other, each in the
    environment it meets. *)
Fixpoint serve_all (rs : list (env * request)) (s : state) : state :=
  match rs with
  | [] => s
  | (e, r) :: rs' => serve_all rs' (serve e r s).2
  end.

(** ** Start-up *)

(** [initPool]: [created] is what [mysql.createPool] returns or throws. *)
Definition initPool (created : exn + Pool) (e : env) : M unit :=
  try_catch
    (let* p := match created with
               | inl err => throw err
               | inr p => ret p
               end in
     run (λ s, (inr tt, set_pool (Some p) s))
     then run pool_ping e
     then ret tt)
    (λ _, ret tt).

(** [ensureTables]: both [CREATE TABLE IF NOT EXISTS] statements. *)
Definition ensureTables (e : env) : M unit :=
  try_catch
    (run pool_ping e
     then λ s, (inr tt, set_tables_exist true s))
    (λ _, ret tt).

(** [await initPool(); if (pool) await ensureTables();]. *)
Definition startup (created : exn + Pool) (e : env) : M unit :=
  run initPool created e
  then λ s, match pool s with
            | Some _ => ensureTables e s
            | None => ret tt s
            end.

End server.

(** ** Outside the program *)

(** Removing a user row by hand: [ON DELETE SET NULL] clears the owner of the
    user's documents. *)
Definition admin_delete_user (uid : Z) (s : state) : state :=
  let orphan (d : document) : document :=
    if bool_decide (user_id d = Some uid)
    then {| user_id := None; document_name := document_name d;
            document_type := document_type d;
            document_date := document_date d; file_path := file_path d;
            original_filename := original_filename d;
            created_at := created_at d |}
    else d in
  set_documents (orphan <$> documents s) (next_document_id s)
    (set_users (delete uid (users s)) (next_user_id s) s).

(** ** Predicates of the claims *)

(** The database answers queries: the pool is set, the server reachable and
    the tables are there. *)
Definition db_ready (e : env) (s : state) : bool :=
  bool_decide (is_Some (pool s)) && db_reachable e && tables_exist s.

(** The [AUTO_INCREMENT] counters lie above every stored id. *)
Definition well_formed (s : state) : bool :=
  forallb (λ r : Z * user, bool_decide (r.1 < next_user_id s))
          (map_to_list (users s))
  && forallb (λ r : Z * document, bool_decide (r.1 < next_document_id s))
             (map_to_list (documents s)).

(** The header does not split, at its spaces, into exactly two parts. *)
Definition malformed (header : option string) : Prop :=
  truthy header = false
  ∨ length (split " "%char (default EmptyString header)) ≠ 2%nat.

(** The second part of the header. *)
Definition bearer_token (header : option string) : string :=
  default EmptyString (split " "%char (default EmptyString header) !! 1%nat).

(** [token] is what a signup or a login answered, for the user [id] with
    [email]. *)
Definition issued {P : Platform} (e : env) (s : state) (token : string)
    (id : Z) (email : string) : Prop :=
  (∃ name email' password,
     (serve e (PostSignup name email' password) s).1
     = Responded (json 200 (JSignup token id email)))
  ∨ (∃ email' password name,
       (serve e (PostLogin email' password) s).1
       = Responded (json 200 (JLogin token id email name))).

(** Some user row holds [email], as the [UNIQUE] index compares it. *)
Definition email_registered (s : state) (email : string) : bool :=
  existsb (λ r : Z * user, collate_eqb (user_email r.2) email)
          (map_to_list (users s)).

(** [email] is registered, and [password] fits no row that holds it. *)
Definition wrong_password {P : Platform} (s : state) (email password : string)
  : bool :=
  email_registered s email
  && forallb (λ r : Z * user,
                implb (collate_eqb (user_email r.2) email)
                      (negb (bcrypt_compare password (user_password_hash r.2))))
             (map_to_list (users s)).

(** The disk after the delete handler has tried to remove the blob of
    [doc]: nothing changes when the row names no file, when the file is not
    there, or when the disk refuses. *)
Definition after_cleanup {P : Platform} (e : env) (doc : document)
    (s : state) : state :=
  let p := path_join __dirname (file_path doc) in
  if bool_decide (file_path doc ≠ EmptyString) then
    match files s !! p with
    | Some _ => if unlink_fails e then s else set_files (delete p (files s)) s
    | None => s
    end
  else s.

(** The row that an upload of [file] by [user] adds. *)
Definition uploaded_row {P : Platform} (e : env) (user : jwt_payload)
    (file : file_part) (name type date : option string) : document :=
  {| user_id := Some (jwt_id user);
     document_name := or_else name (originalname file);
     document_type := or_null type;
     document_date := or_null date;
     file_path :=
       replace_backslashes
         (replace_double_backslashes
            (path_relative __dirname (path_join UPLOAD_DIR (filename e file))));
     original_filename := originalname file;
     created_at := now_s e |}.

(** What a caller sees of a request while the database is away. *)
Definition degraded_response (r : request) (response : response) : Prop :=
  match r with
  | GetHealth =>
      ∃ reason, response = json 200 (JHealth true (Some false) (Some reason))
  | PostSignup _ email password =>
      if truthy email && truthy password then response = internal_error
      else response = json 400 (JError "email/password required")
  | PostLogin _ _ | GetSearch _ _ _ => response = internal_error
  | GetMydocs _ | DeleteDocument _ _ =>
      response = internal_error
      ∨ ∃ message, response = json 401 (JError message)
  | PostUpload _ part _ _ _ =>
      response = json 500 (JError "upload failed")
      ∨ response = json 500 ExpressErrorPage
      ∨ (part = None ∧ response = json 400 (JError "file required"))
      ∨ ∃ message, response = json 401 (JError message)
  end.

(** The characters of a decimal numeral. *)
Definition numeral_char (c : ascii) : Prop :=
  c ∈ list_ascii_of_string "-0123456789".

Definition contains_char (c : ascii) (s : string) : bool :=
  bool_decide (c ∈ list_ascii_of_string s).

(** A path segment that is a name: [normalizeString] keeps it as it is. *)
Definition plain_segment (x : string) : Prop :=
  x ≠ "" ∧ x ≠ "." ∧ x ≠ ".." ∧ contains_char "/" x = false.

(** A segment of a normalised path. *)
Definition good_segment (x : string) : Prop :=
  x ≠ "" ∧ contains_char "/" x = false.

(** What the loop of [normalizeString] has kept holds no empty segment and
    no [.], and no [..] unless the path may climb. *)
Definition kept_ok (allowAboveRoot : bool) (kept : list string) : Prop :=
  Forall (λ x, x ≠ "" ∧ x ≠ "." ∧ (allowAboveRoot = false → x ≠ ".."))
         kept.

(** A path in normal form: the root or nothing, then the segments with a
    slash between them. *)
Definition path_of (absolute : bool) (segments : list string) : string :=
  (if absolute then "/" else "") +:+ String.concat "/" segments.

Definition normal_segments (p : string) : list string :=
  normalize_segments (negb (is_absolute p)) (split "/" p).

(** The filters of a search request as the search claim words them: [q] as a
    case-insensitive substring of the name or of the original filename, [type]
    and [date] by exact equality, absent filters without effect. *)
Definition matches_as_claimed (q type date : option string) (d : document)
  : bool :=
  (if truthy q
   then ci_substring (default EmptyString q) (document_name d)
        || ci_substring (default EmptyString q) (original_filename d)
   else true)
  && (if truthy type then bool_decide (document_type d = type) else true)
  && (if truthy date then bool_decide (document_date d = date) else true).

(** The same with [type] compared as the column compares. *)
Definition matches (q type date : option string) (d : document) : bool :=
  (if truthy q
   then ci_substring (default EmptyString q) (document_name d)
        || ci_substring (default EmptyString q) (original_filename d)
   else true)
  && (if truthy type
      then sql_eq (document_type d) (default EmptyString type) else true)
  && (if truthy date then bool_decide (document_date d = date) else true).

(** ** A platform and a state to run the model on *)

Module Demo.

(** Stand-ins for [jsonwebtoken] and [bcrypt], enough to run the handlers:
    a token is a checksum over the secret and the claims, followed by the
    claims; a hash is a checksum over the salt and the password. *)

Fixpoint parse_digits (acc : Z) (s : string) : option Z :=
  match s with
  | EmptyString => Some acc
  | String c s' =>
      let n := Z.of_N (N_of_ascii c) in
      if bool_decide (48 ≤ n ≤ 57) then parse_digits (10 * acc + (n - 48)) s'
      else None
  end.

Definition parse_number (s : string) : option Z :=
  match s with
  | EmptyString => None
  | String _ _ => parse_digits 0 s
  end.

Fixpoint checksum (acc : Z) (s : string) : Z :=
  match s with
  | EmptyString => acc
  | String c s' => checksum ((31 * acc + Z.of_N (N_of_ascii c)) `mod` 65521) s'
  end.

Definition claims_text (p : jwt_payload) : string :=
  pretty (jwt_id p) +:+ "." +:+ pretty (jwt_iat p) +:+ "." +:+
  pretty (jwt_exp p) +:+ "." +:+ jwt_email p.

Definition signature (p : jwt_payload) (secret : string) : string :=
  pretty (checksum 7 (secret +:+ "." +:+ claims_text p)).

Definition encode (p : jwt_payload) (secret : string) : string :=
  signature p secret +:+ "." +:+ claims_text p.

Definition decode (token secret : string) : option jwt_payload :=
  match split "."%char token with
  | sig :: id :: iat :: exp :: email :: more =>
      id' ← parse_number id;
      iat' ← parse_number iat;
      exp' ← parse_number exp;
      let p := {| jwt_id := id'; jwt_email := String.concat "." (email :: more);
                  jwt_iat := iat'; jwt_exp := exp' |} in
      if bool_decide (sig = signature p secret) then Some p else None
  | _ => None
  end.

Definition hash (password : string) (rounds : nat) (salt : string) : string :=
  "$2b$" +:+ pretty rounds +:+ "$" +:+ salt +:+ "$" +:+
  pretty (checksum 11 (salt +:+ password)).

Definition compare (password h : string) : bool :=
  match split "$"%char h with
  | [_; _; rounds; salt; digest] =>
      bool_decide (digest = pretty (checksum 11 (salt +:+ password)))
  | _ => false
  end.

Definition platform : Platform :=
  {| __dirname := "/srv/app";
     JWT_SECRET := "change_this_secret_in_env";
     bcrypt_hash := hash;
     bcrypt_compare := compare;
     jwt_encode := encode;
     jwt_decode := decode |}.

Definition the_pool : Pool :=
  {| pool_host := "127.0.0.1"; pool_port := 3306; connectionLimit := 10 |}.

(** An empty database behind a working pool. *)
Definition fresh : state :=
  {| pool := Some the_pool; tables_exist := true; users := ∅;
     next_user_id := 1; documents := ∅; next_document_id := 1; files := ∅ |}.

(** The process before [initPool] has run. *)
Definition cold : state :=
  {| pool := None; tables_exist := false; users := ∅;
     next_user_id := 1; documents := ∅; next_document_id := 1; files := ∅ |}.

Definition at_time (ms : Z) : env :=
  {| now_ms := ms; random := 123456789; salt := "N9qo8uLOickgx2ZMRZoMye";
     db_reachable := true;
     connect_error := "connect ECONNREFUSED 127.0.0.1:3306";
     disk_write_fails := false; unlink_fails := false |}.

Definition offline (ms : Z) : env :=
  {| now_ms := ms; random := 123456789; salt := "N9qo8uLOickgx2ZMRZoMye";
     db_reachable := false;
     connect_error := "connect ECONNREFUSED 127.0.0.1:3306";
     disk_write_fails := false; unlink_fails := false |}.

Definition disk_refuses (ms : Z) : env :=
  {| now_ms := ms; random := 123456789; salt := "N9qo8uLOickgx2ZMRZoMye";
     db_reachable := true;
     connect_error := "connect ECONNREFUSED 127.0.0.1:3306";
     disk_write_fails := false; unlink_fails := true |}.

(** One user, Ann, with two uploads; a third upload has lost its owner. *)
Definition ann : user :=
  {| user_name := Some "Ann"; user_email := "ann@x.com";
     user_password_hash := hash "pw1" 10 "N9qo8uLOickgx2ZMRZoMye";
     user_created_at := 10 |}.

Definition bob : user :=
  {| user_name := None; user_email := "bob@x.com";
     user_password_hash := hash "pw2" 10 "N9qo8uLOickgx2ZMRZoMye";
     user_created_at := 11 |}.

Definition report : document :=
  {| user_id := Some 1; document_name := "Annual Report";
     document_type := Some "pdf"; document_date := Some "2024-03-01";
     file_path := "uploads/20000-7.pdf"; original_filename := "report.pdf";
     created_at := 20 |}.

Definition memo : document :=
  {| user_id := Some 1; document_name := "a";
     document_type := None; document_date := None;
     file_path := "uploads/30000-8.txt"; original_filename := "a.txt";
     created_at := 30 |}.

Definition orphan : document :=
  {| user_id := None; document_name := "old rules";
     document_type := Some "pdf"; document_date := None;
     file_path := "uploads/5000-9.pdf"; original_filename := "rules.pdf";
     created_at := 5 |}.

Definition library : state :=
  {| pool := Some the_pool; tables_exist := true;
     users := {[ 1 := ann; 2 := bob ]}; next_user_id := 3;
     documents := {[ 1 := report; 2 := memo; 3 := orphan ]};
     next_document_id := 4;
     files := {[ "/srv/app/uploads/20000-7.pdf" := "%PDF";
                 "/srv/app/uploads/30000-8.txt" := "hello";
                 "/srv/app/uploads/5000-9.pdf" := "%PDF" ]} |}.

(** The tokens that [login] hands to Ann and to Bob at second 100. *)
Definition ann_token : string := encode
  {| jwt_id := 1; jwt_email := "ann@x.com"; jwt_iat := 100;
     jwt_exp := 100 + 12 * 60 * 60 |} "change_this_secret_in_env".

Definition bob_token : string := encode
  {| jwt_id := 2; jwt_email := "bob@x.com"; jwt_iat := 100;
     jwt_exp := 100 + 12 * 60 * 60 |} "change_this_secret_in_env".

End Demo.

(** ** Predicates of the further properties *)

(** No two user rows hold the same email, as the [UNIQUE] index compares
    emails. *)
Definition unique_emails (s : state) : bool :=
  forallb (λ r : Z * user,
             forallb (λ r' : Z * user,
                        implb (collate_eqb (user_email r.2) (user_email r'.2))
                              (bool_decide (r.1 = r'.1)))
                     (map_to_list (users s)))
          (map_to_list (users s)).

(** The foreign key of [documents]: an owner, where there is one, is the id
    of a user row. *)
Definition owners_exist (s : state) : bool :=
  forallb (λ r : Z * document,
             match user_id r.2 with
             | None => true
             | Some owner => bool_decide (is_Some (users s !! owner))
             end)
          (map_to_list (documents s)).

(** The routes whose handlers only run [SELECT] statements or none. *)
Definition reads_only (r : request) : bool :=
  match r with
  | GetHealth | PostLogin _ _ | GetMydocs _ | GetSearch _ _ _ => true
  | PostSignup _ _ _ | PostUpload _ _ _ _ _ | DeleteDocument _ _ => false
  end.

(** The ten digits; a text that is empty or starts with another
    character. *)
Definition digit_char (c : ascii) : Prop :=
  c ∈ list_ascii_of_string "0123456789".

Definition starts_plain (s : string) : Prop :=
  match s with
  | EmptyString => True
  | String c _ => ¬ digit_char c
  end.

(** * Properties *)

(** ** The text operations on the inputs of the Node documentation *)

Example split_bearer : split " " "Bearer abc" = ["Bearer"; "abc"].
Proof. reflexivity. Qed.

Example split_two_spaces : split " " "Bearer  abc" = ["Bearer"; ""; "abc"].
Proof. reflexivity. Qed.

Example split_empty : split " " "" = [""].
Proof. reflexivity. Qed.

Example extname_html : extname "index.html" = ".html".
Proof. vm_compute. reflexivity. Qed.

Example extname_last_dot : extname "index.coffee.md" = ".md".
Proof. vm_compute. reflexivity. Qed.

Example extname_dot_at_end : extname "index." = ".".
Proof. vm_compute. reflexivity. Qed.

Example extname_no_dot : extname "index" = "".
Proof. vm_compute. reflexivity. Qed.

Example extname_hidden : extname ".index" = "".
Proof. vm_compute. reflexivity. Qed.

Example extname_hidden_md : extname ".index.md" = ".md".
Proof. vm_compute. reflexivity. Qed.

Example extname_two_dots : extname ".." = "".
Proof. vm_compute. reflexivity. Qed.

Example extname_directory : extname "a.b/c" = "".
Proof. vm_compute. reflexivity. Qed.

Example extname_trailing_slash : extname "a.b/" = ".b".
Proof. vm_compute. reflexivity. Qed.

Example like_underscore : like "%_%" "a" = true ∧ like "%_%" "" = false.
Proof. split; vm_compute; reflexivity. Qed.

Example like_escaped : like "%\_%" "a" = false ∧ like "%\_%" "a_b" = true.
Proof. split; vm_compute; reflexivity. Qed.

Example like_case : like "%RePort%" "annual report.PDF" = true.
Proof. vm_compute. reflexivity. Qed.

Example String_of_int_negative : String_of_int (-12) = "-12".
Proof. vm_compute. reflexivity. Qed.

Example double_backslashes :
  replace_backslashes (replace_double_backslashes "a\\b\c") = "a/b/c".
Proof. vm_compute. reflexivity. Qed.

Example path_join_normalises :
  path_join "/srv/app" "uploads/../uploads//./30000-8.txt"
  = "/srv/app/uploads/30000-8.txt"
  ∧ path_join "/srv/app" "../../../etc/" = "/etc/"
  ∧ path_join "app" "../../x" = "../x"
  ∧ path_join "" "" = ".".
Proof. vm_compute. done. Qed.

Example path_relative_climbs :
  path_relative "/srv/app" "/srv/app/uploads/1-2.txt" = "uploads/1-2.txt"
  ∧ path_relative "/srv/app/bin" "/srv/data/x" = "../../data/x"
  ∧ path_relative "/srv/app" "/srv/app/" = "".
Proof. vm_compute. done. Qed.

(** ** Text *)

Lemma like_percent_cons rest text :
  like (String "%" rest) text =
  like rest text ||
  match text with
  | EmptyString => false
  | String _ text' => like (String "%" rest) text'
  end.
Proof. by destruct text. Qed.

Lemma like_percent text : like "%" text = true.
Proof.
  induction text as [|c text IH]; [done|].
  rewrite like_percent_cons. by rewrite IH, orb_true_r.
Qed.

Lemma like_plain_cons c rest text :
  like_special c = false →
  like (String c rest) text =
  match text with
  | EmptyString => false
  | String d text' => ci_eqb c d && like rest text'
  end.
Proof.
  unfold like_special. intros Hc. apply bool_decide_eq_false in Hc.
  simpl. repeat case_decide; [naive_solver..|done].
Qed.

Lemma like_plain_prefix q text :
  like_plain q = true → like (q +:+ "%") text = ci_prefix q text.
Proof.
  revert text. induction q as [|c q IH]; intros text Hq.
  - apply like_percent.
  - simpl in Hq. apply andb_true_iff in Hq as [Hc Hq].
    apply negb_true_iff in Hc.
    change (String c q +:+ "%") with (String c (q +:+ "%")).
    rewrite like_plain_cons by done.
    destruct text as [|d text]; [done|]. simpl. by rewrite IH.
Qed.

(** For a [q] without wildcards, [LIKE '%q%'] is containment of [q] up to
    case. *)
Lemma like_plain_substring q text :
  like_plain q = true → like ("%" +:+ q +:+ "%") text = ci_substring q text.
Proof.
  intros Hq. change ("%" +:+ q +:+ "%") with (String "%" (q +:+ "%")).
  induction text as [|c text IH].
  - rewrite like_percent_cons, like_plain_prefix by done. done.
  - rewrite like_percent_cons, like_plain_prefix, IH by done. done.
Qed.

(** ** The monad and the pool *)

Lemma pool_query_ready {A} e (statement : M A) s :
  db_ready e s = true → pool_query e statement s = statement s.
Proof.
  unfold db_ready, pool_query. intros Hr.
  apply andb_true_iff in Hr as [Hr Ht]. apply andb_true_iff in Hr as [Hp Hd].
  apply bool_decide_eq_true in Hp as [p Hp]. by rewrite Hp, Hd, Ht.
Qed.

(** ** Search *)

Global Instance newer_first_total : Total newer_first.
Proof. intros a b. unfold newer_first. lia. Qed.

Global Instance newer_first_trans : Transitive newer_first.
Proof. intros a b c. unfold newer_first. lia. Qed.

(** The conditions that the handler builds hold of a document exactly when
    the document matches the filters, as long as [q] has no wildcard. *)
Lemma search_conditions_matches q type date d :
  like_plain (default EmptyString q) = true →
  forallb (holds d) (search_conditions q type date) = matches q type date d.
Proof.
  intros Hq. unfold search_conditions, matches.
  rewrite !forallb_app, andb_assoc.
  f_equal; [f_equal|].
  - destruct (truthy q); [|done].
    cbn [forallb holds]. rewrite !like_plain_substring, andb_true_r by done.
    done.
  - destruct (truthy type); simpl; [|done]. by rewrite andb_true_r.
  - destruct (truthy date) eqn:Hd; simpl; [|done].
    rewrite andb_true_r. destruct date as [v|]; [|done]. simpl.
    unfold sql_date_eq. destruct (document_date d) as [c|]; simpl.
    + apply bool_decide_ext. naive_solver.
    + done.
Qed.

Lemma forallb_holds_if d (b : bool) c :
  forallb (holds d) (if b then [c] else []) = true
  ↔ (b = true → holds d c = true).
Proof.
  destruct b; simpl; rewrite ?andb_true_r; split; auto; discriminate.
Qed.

(** The conditions that the handler builds, one by one: each filter that is
    present and not empty asks its own condition of the row, the others
    none. *)
Lemma search_conditions_hold q type date d :
  forallb (holds d) (search_conditions q type date) = true ↔
    (truthy q = true →
     like ("%" +:+ default EmptyString q +:+ "%") (document_name d)
     || like ("%" +:+ default EmptyString q +:+ "%") (original_filename d)
     = true)
    ∧ (truthy type = true →
       sql_eq (document_type d) (default EmptyString type) = true)
    ∧ (truthy date = true → document_date d = date).
Proof.
  unfold search_conditions. cbv zeta.
  rewrite !forallb_app, !andb_true_iff, !forallb_holds_if.
  cbn [holds].
  assert (Hdate : truthy date = true →
            sql_date_eq (document_date d) (default EmptyString date) = true
            ↔ document_date d = date).
  { destruct date as [v|]; [|done]. intros _. simpl. unfold sql_date_eq.
    destruct (document_date d) as [c|]; simpl.
    - rewrite bool_decide_eq_true. split; congruence.
    - split; discriminate. }
  split; intros (Hq & Ht & Hd); split_and!; try done.
  - intros Htruthy. by apply Hdate, Hd.
  - intros Htruthy. by apply Hdate, Hd.
Qed.

(** C1, as amended.  While the database is available, every search answers
    200 with the first 200 rows of [found], where [found] lists, newest
    first and without repetition, exactly the stored documents that meet
    every filter that is present and not empty: for [q], the name or the
    original filename is [LIKE] the pattern [%q%], in which [%] and [_] of
    [q] are wildcards and a backslash makes the next character literal, and
    which for a [q] without these three characters is containment of [q] up
    to case; for [type], equality under the collation of its column; for
    [date], equality.  Every row is a stored document and carries the email
    of its owner, or null when the owner is gone.  The state is
    unchanged. *)
Theorem search_newest_matching {P : Platform} e q type date s :
  db_ready e s = true →
  ∃ found : list (Z * document),
    serve e (GetSearch q type date) s
    = (Responded
         (json 200 (JSearch (join_uploader (users s) <$> take 200 found))), s)
    ∧ (∀ id d, (id, d) ∈ found ↔
         documents s !! id = Some d
         ∧ (truthy q = true →
            like ("%" +:+ default EmptyString q +:+ "%") (document_name d)
            || like ("%" +:+ default EmptyString q +:+ "%")
                    (original_filename d)
            = true)
         ∧ (truthy type = true →
            sql_eq (document_type d) (default EmptyString type) = true)
         ∧ (truthy date = true → document_date d = date))
    ∧ (like_plain (default EmptyString q) = true →
       ∀ text, like ("%" +:+ default EmptyString q +:+ "%") text
               = ci_substring (default EmptyString q) text)
    ∧ NoDup found
    ∧ StronglySorted newer_first found
    ∧ (length (take 200 found) ≤ 200)%nat
    ∧ (length found ≤ 200 → take 200 found = found)%nat
    ∧ ∀ r, r ∈ join_uploader (users s) <$> take 200 found →
        documents s !! row_id r = Some (row_document r)
        ∧ match user_id (row_document r) with
          | None => uploaded_by r = None
          | Some owner => uploaded_by r = user_email <$> users s !! owner
          end.
Proof.
  intros Hready.
  set (hit := λ r : Z * document,
         forallb (holds r.2) (search_conditions q type date) = true).
  set (found := merge_sort newer_first (filter hit (map_to_list (documents s)))).
  assert (Hin : ∀ id d, (id, d) ∈ found ↔
            documents s !! id = Some d
            ∧ forallb (holds d) (search_conditions q type date) = true).
  { intros id d. unfold found. rewrite merge_sort_Permutation.
    rewrite list_elem_of_filter, elem_of_map_to_list. unfold hit. simpl.
    tauto. }
  exists found. split_and!.
  - unfold serve, route, search, try_catch, bind.
    rewrite pool_query_ready by done. done.
  - intros id d. rewrite Hin, search_conditions_hold. done.
  - intros Hq text. by apply like_plain_substring.
  - unfold found. rewrite merge_sort_Permutation.
    apply NoDup_filter, NoDup_map_to_list.
  - apply StronglySorted_merge_sort; apply _.
  - rewrite length_take. lia.
  - intros Hlen. by apply take_ge.
  - intros r Hr. apply list_elem_of_fmap in Hr as ([id d] & -> & Hr).
    apply elem_of_take in Hr as (i & Hr & _).
    apply list_elem_of_lookup_2, Hin in Hr as [Hr _]. simpl. split; [done|].
    by destruct (user_id d).
Qed.

(** C1, an instance: Ann's library searched for [REPORT] among the [PDF]
    documents finds the report, and searched for [_], a pattern that any
    text of one character or more meets, finds the memo named [a]. *)
Lemma search_newest_matching_witness :
  (∃ found,
     serve (P := Demo.platform) (Demo.at_time 40000)
       (GetSearch (Some "REPORT") (Some "PDF") None) Demo.library
     = (Responded
          (json 200 (JSearch (join_uploader (users Demo.library)
                                <$> take 200 found))), Demo.library)
     ∧ (1, Demo.report) ∈ found
     ∧ (2, Demo.memo) ∉ found)
  ∧ (∃ found,
       serve (P := Demo.platform) (Demo.at_time 40000)
         (GetSearch (Some "_") None None) Demo.library
       = (Responded
            (json 200 (JSearch (join_uploader (users Demo.library)
                                  <$> take 200 found))), Demo.library)
       ∧ (2, Demo.memo) ∈ found).
Proof.
  split.
  - destruct (search_newest_matching (P := Demo.platform)
                (Demo.at_time 40000) (Some "REPORT") (Some "PDF") None
                Demo.library)
      as (found & Hserve & Hin & _); [vm_compute; reflexivity|].
    exists found. split; [exact Hserve|]. split.
    + apply Hin. split_and!; try (vm_compute; reflexivity). discriminate.
    + intros (_ & _ & Htype & _)%Hin. specialize (Htype eq_refl).
      vm_compute in Htype. discriminate.
  - destruct (search_newest_matching (P := Demo.platform)
                (Demo.at_time 40000) (Some "_") None None Demo.library)
      as (found & Hserve & Hin & _); [vm_compute; reflexivity|].
    exists found. split; [exact Hserve|].
    apply Hin. split_and!; try (vm_compute; reflexivity); discriminate.
Defined.

(** C1, as stated, fails twice on Ann's library.  The query [_] returns the
    memo, whose name and filename hold no underscore; the type [PDF] returns
    the report, whose type is [pdf]. *)
Lemma search_as_claimed_counterexample :
  (∃ r rest,
     (serve (P := Demo.platform) (Demo.at_time 40000)
        (GetSearch (Some "_") None None) Demo.library).1
     = Responded (json 200 (JSearch (r :: rest)))
     ∧ matches_as_claimed (Some "_") None None (row_document r) = false)
  ∧ (∃ r rest,
       (serve (P := Demo.platform) (Demo.at_time 40000)
          (GetSearch None (Some "PDF") None) Demo.library).1
       = Responded (json 200 (JSearch (r :: rest)))
       ∧ matches_as_claimed None (Some "PDF") None (row_document r) = false).
Proof.
  split; eexists _, _; (split; [vm_compute; reflexivity|]); vm_compute;
    reflexivity.
Qed.

(** ** Splitting *)

Lemma contains_char_cons c d s :
  contains_char c (String d s) = false ↔ c ≠ d ∧ contains_char c s = false.
Proof.
  unfold contains_char. rewrite !bool_decide_eq_false. simpl.
  rewrite not_elem_of_cons. done.
Qed.

Lemma split_no_separator sep s :
  contains_char sep s = false → split sep s = [s].
Proof.
  induction s as [|c s IH]; [done|]. intros Hs.
  apply contains_char_cons in Hs as [Hc Hs]. simpl.
  rewrite decide_False by done. by rewrite IH.
Qed.

Lemma split_at_separator sep a b :
  contains_char sep a = false →
  split sep (a +:+ String sep b) = a :: split sep b.
Proof.
  induction a as [|c a IH]; intros Ha; simpl.
  - by rewrite decide_True.
  - apply contains_char_cons in Ha as [Hc Ha].
    rewrite decide_False by done. by rewrite IH.
Qed.

Lemma split_scheme_token scheme token :
  contains_char " " scheme = false →
  contains_char " " token = false →
  split " " (scheme +:+ " " +:+ token) = [scheme; token].
Proof.
  intros Hs Ht. change (" " +:+ token) with (String " " token).
  rewrite split_at_separator by done. by rewrite split_no_separator.
Qed.

(** ** The auth gate *)

Section auth.
Context {P : Platform}.

Lemma authMiddleware_missing e header s :
  truthy header = false →
  authMiddleware e header s = (inr (inl (json 401 (JError "Missing auth"))), s).
Proof. intros Hh. unfold authMiddleware. by rewrite Hh. Qed.

Lemma authMiddleware_bad e header s :
  truthy header = true →
  length (split " "%char (default EmptyString header)) ≠ 2%nat →
  authMiddleware e header s = (inr (inl (json 401 (JError "Bad auth"))), s).
Proof.
  intros Hh Hl. unfold authMiddleware. rewrite Hh. simpl.
  by rewrite bool_decide_eq_true_2.
Qed.

Lemma authMiddleware_verify e header s :
  truthy header = true →
  length (split " "%char (default EmptyString header)) = 2%nat →
  authMiddleware e header s =
  match jwt_decode (bearer_token header) JWT_SECRET with
  | Some payload =>
      if bool_decide (jwt_exp payload ≤ now_s e)
      then (inr (inl (json 401 (JError "Invalid token"))), s)
      else (inr (inr payload), s)
  | None => (inr (inl (json 401 (JError "Invalid token"))), s)
  end.
Proof.
  intros Hh Hl. unfold authMiddleware. rewrite Hh. simpl.
  rewrite bool_decide_eq_false_2 by (by intros []).
  unfold try_catch, bind, jwt_verify, bearer_token.
  destruct (jwt_decode _ _) as [payload|]; [|done].
  by destruct (bool_decide _).
Qed.

(** The middleware never throws and leaves the state alone. *)
Lemma authMiddleware_total e header s :
  ∃ checked, authMiddleware e header s = (inr checked, s).
Proof.
  destruct (truthy header) eqn:Hh.
  - destruct (decide (length (split " "%char (default EmptyString header))
                      = 2%nat)) as [Hl|Hl].
    + rewrite authMiddleware_verify by done.
      destruct (jwt_decode _ _); [destruct (bool_decide _)|]; eauto.
    + rewrite authMiddleware_bad by done. eauto.
  - rewrite authMiddleware_missing by done. eauto.
Qed.

Lemma authenticated_rejected e header handler s rejection :
  authMiddleware e header s = (inr (inl rejection), s) →
  authenticated e header handler s = (inr rejection, s).
Proof. intros Ha. unfold authenticated, bind. by rewrite Ha. Qed.

Lemma authenticated_accepted e header handler s user :
  authMiddleware e header s = (inr (inr user), s) →
  authenticated e header handler s = handler user s.
Proof. intros Ha. unfold authenticated, bind. by rewrite Ha. Qed.

End auth.

(** C3.  The auth check never changes the state.  A header that is missing,
    or that does not split at its spaces into exactly two parts, is answered
    401 whatever the handler behind the gate and whatever the verification
    of signatures would say, so the check of the structure comes first.  A
    token with an invalid signature, and a token past its expiry, are
    answered 401 as well, and the handler does not run. *)
Theorem auth_gate_rejects {P : Platform} e header s :
  (authMiddleware e header s).2 = s
  ∧ (malformed header →
     ∃ message, ∀ (P' : Platform) handler,
       authenticated (P := P') e header handler s
       = (inr (json 401 (JError message)), s))
  ∧ (jwt_decode (bearer_token header) JWT_SECRET = None
     ∨ (∃ payload, jwt_decode (bearer_token header) JWT_SECRET = Some payload
                   ∧ jwt_exp payload ≤ now_s e) →
     ∃ message, ∀ handler,
       authenticated e header handler s
       = (inr (json 401 (JError message)), s)).
Proof.
  split_and!.
  - by destruct (authMiddleware_total e header s) as [checked ->].
  - intros [Hh|Hl].
    + exists "Missing auth". intros P' handler.
      by apply authenticated_rejected, authMiddleware_missing.
    + destruct (truthy header) eqn:Hh.
      * exists "Bad auth". intros P' handler.
        by apply authenticated_rejected, authMiddleware_bad.
      * exists "Missing auth". intros P' handler.
        by apply authenticated_rejected, authMiddleware_missing.
  - intros Hbad. destruct (truthy header) eqn:Hh.
    + destruct (decide (length (split " "%char (default EmptyString header))
                        = 2%nat)) as [Hl|Hl].
      * exists "Invalid token". intros handler.
        apply authenticated_rejected. rewrite authMiddleware_verify by done.
        destruct Hbad as [->|(payload & -> & Hexp)]; [done|].
        by rewrite bool_decide_eq_true_2.
      * exists "Bad auth". intros handler.
        by apply authenticated_rejected, authMiddleware_bad.
    + exists "Missing auth". intros handler.
      by apply authenticated_rejected, authMiddleware_missing.
Qed.

(** C3, an instance: Ann's token a day after its issue, and a header of
    three parts. *)
Lemma auth_gate_rejects_witness :
  (∃ message, ∀ handler,
     authenticated (P := Demo.platform) (Demo.at_time 86500000)
       (Some ("Bearer " +:+ Demo.ann_token)) handler Demo.library
     = (inr (json 401 (JError message)), Demo.library))
  ∧ (∃ message, ∀ (P' : Platform) handler,
       authenticated (P := P') (Demo.at_time 200000)
         (Some ("Bearer " +:+ Demo.ann_token +:+ " x")) handler Demo.library
       = (inr (json 401 (JError message)), Demo.library)).
Proof.
  split.
  - apply (auth_gate_rejects (P := Demo.platform)). right.
    eexists. split; [vm_compute; reflexivity|]. vm_compute. discriminate.
  - apply (auth_gate_rejects (P := Demo.platform)). right.
    vm_compute. discriminate.
Defined.

(** ** Tokens *)

Lemma issued_is_signed {P : Platform} e s token id email :
  issued e s token id email → token = jwt_sign e id email.
Proof.
  unfold issued, serve, route, signup, login, try_catch, bind, ret.
  intros [(name & email' & password & Hs)|(email' & password & name & Hs)].
  - repeat (case_match; simplify_eq/=); done.
  - unfold bcrypt_compare_js, throw, ret in Hs.
    repeat (case_match; simplify_eq/=); done.
Qed.

(** C4.  A token that a signup or a login has issued for [id] and [email] at
    [e0], presented behind any scheme, is accepted as long as the clock is
    less than twelve hours past the issue, with the identity that was signed,
    and the handler behind the gate runs for that user; from twelve hours on
    the request is answered 401.  The library is assumed to decode what it
    has encoded, into a serialisation without spaces. *)
Theorem token_round_trip {P : Platform} e0 s0 token id email scheme e1 s1 :
  issued e0 s0 token id email →
  jwt_decode (jwt_sign e0 id email) JWT_SECRET = Some (jwt_claims e0 id email) →
  contains_char " " (jwt_sign e0 id email) = false →
  contains_char " " scheme = false →
  (now_s e1 < now_s e0 + 12 * 60 * 60 →
   ∃ user,
     authMiddleware e1 (Some (scheme +:+ " " +:+ token)) s1 = (inr (inr user), s1)
     ∧ jwt_id user = id ∧ jwt_email user = email
     ∧ ∀ handler,
         authenticated e1 (Some (scheme +:+ " " +:+ token)) handler s1
         = handler user s1)
  ∧ (now_s e0 + 12 * 60 * 60 ≤ now_s e1 →
     ∀ handler,
       authenticated e1 (Some (scheme +:+ " " +:+ token)) handler s1
       = (inr (json 401 (JError "Invalid token")), s1)).
Proof.
  intros Hissued Hdecode Htoken Hscheme.
  apply issued_is_signed in Hissued as ->.
  assert (Hparts : split " " (scheme +:+ " " +:+ jwt_sign e0 id email)
                   = [scheme; jwt_sign e0 id email])
    by by apply split_scheme_token.
  assert (Htruthy : truthy (Some (scheme +:+ " " +:+ jwt_sign e0 id email))
                    = true) by by destruct scheme.
  assert (Hauth := authMiddleware_verify e1 _ s1 Htruthy).
  unfold bearer_token in Hauth. simpl in Hauth. rewrite Hparts in Hauth.
  specialize (Hauth eq_refl). simpl in Hauth. rewrite Hdecode in Hauth.
  simpl in Hauth. split.
  - intros Hnow. rewrite bool_decide_eq_false_2 in Hauth by lia.
    exists (jwt_claims e0 id email). split_and!; [done..|].
    intros handler. by apply authenticated_accepted.
  - intros Hnow. rewrite bool_decide_eq_true_2 in Hauth by lia.
    intros handler. by apply authenticated_rejected.
Qed.

(** C4, an instance: the token of a signup at second 1000, presented one
    second before and exactly at its expiry. *)
Lemma token_round_trip_witness :
  let token :=
    jwt_sign (P := Demo.platform) (Demo.at_time 1000000) 1 "a@x.com" in
  (∃ user,
     authMiddleware (P := Demo.platform) (Demo.at_time 44199000)
       (Some ("Bearer" +:+ " " +:+ token)) Demo.fresh
     = (inr (inr user), Demo.fresh)
     ∧ jwt_id user = 1 ∧ jwt_email user = "a@x.com")
  ∧ ∀ handler,
      authenticated (P := Demo.platform) (Demo.at_time 44200000)
        (Some ("Bearer" +:+ " " +:+ token)) handler Demo.fresh
      = (inr (json 401 (JError "Invalid token")), Demo.fresh).
Proof.
  intros token.
  assert (Hissued : issued (P := Demo.platform) (Demo.at_time 1000000)
                      Demo.fresh token 1 "a@x.com").
  { left. exists None, (Some "a@x.com"), (Some "pw1"). vm_compute. reflexivity. }
  split.
  - destruct (token_round_trip (P := Demo.platform) (Demo.at_time 1000000)
                Demo.fresh token 1 "a@x.com" "Bearer"
                (Demo.at_time 44199000) Demo.fresh Hissued)
      as [Hbefore _]; [vm_compute; reflexivity..|].
    destruct Hbefore as (user & Hauth & Hid & Hemail & _);
      [vm_compute; reflexivity|].
    exists user. auto.
  - destruct (token_round_trip (P := Demo.platform) (Demo.at_time 1000000)
                Demo.fresh token 1 "a@x.com" "Bearer"
                (Demo.at_time 44200000) Demo.fresh Hissued)
      as [_ Hafter]; [vm_compute; reflexivity..|].
    apply Hafter. vm_compute. discriminate.
Defined.

(** ** Login *)

Section login.
Context {P : Platform}.

Lemma email_registered_rows s email :
  email_registered s email = false →
  filter (λ r : Z * user, collate_eqb (user_email r.2) email = true)
         (map_to_list (users s)) = [].
Proof.
  unfold email_registered. generalize (map_to_list (users s)).
  intros rows. induction rows as [|r rows IH]; [done|]. simpl.
  intros Hr. apply orb_false_iff in Hr as [Hr Hrows].
  rewrite filter_cons, decide_False by (by rewrite Hr). auto.
Qed.

Lemma email_registered_first s email :
  email_registered s email = true →
  ∃ r rows,
    filter (λ r : Z * user, collate_eqb (user_email r.2) email = true)
           (map_to_list (users s)) = r :: rows
    ∧ users s !! r.1 = Some r.2
    ∧ collate_eqb (user_email r.2) email = true.
Proof.
  unfold email_registered. intros Hr.
  apply existsb_exists in Hr as (r & Hin & Hr).
  apply list_elem_of_In in Hin.
  assert (Hf : r ∈ filter (λ r : Z * user,
                 collate_eqb (user_email r.2) email = true)
                 (map_to_list (users s))) by by apply list_elem_of_filter.
  destruct (filter _ _) as [|r' rows] eqn:Hrows; [by apply elem_of_nil in Hf|].
  exists r', rows. split; [done|].
  assert (Hr' : r' ∈ filter (λ r : Z * user,
                  collate_eqb (user_email r.2) email = true)
                  (map_to_list (users s))) by (rewrite Hrows; left).
  apply list_elem_of_filter in Hr' as [Hr'1 Hr'2]. split; [|done].
  apply elem_of_map_to_list. by destruct r'.
Qed.

End login.

(** Where the request for the registered email carries a password, the two
    failures of a login are answered alike: an email that no user row holds,
    and a registered email with a password that [bcrypt.compare] refuses,
    both get status 400 and the body [{ error: "invalid" }]; neither changes
    the state. *)
Lemma login_failures_alike {P : Platform}
    e1 s1 email1 password1 e2 s2 email2 password2 :
  db_ready e1 s1 = true →
  db_ready e2 s2 = true →
  email_registered s1 email1 = false →
  wrong_password s2 email2 password2 = true →
  ∃ failure,
    serve e1 (PostLogin (Some email1) password1) s1 = (Responded failure, s1)
    ∧ serve e2 (PostLogin (Some email2) (Some password2)) s2
      = (Responded failure, s2)
    ∧ failure = json 400 (JError "invalid").
Proof.
  intros Hr1 Hr2 Hunknown Hwrong. exists (json 400 (JError "invalid")).
  split_and!; [| |done].
  - unfold serve, route, login, try_catch, bind.
    rewrite pool_query_ready by done. unfold select_user_by_email.
    by rewrite email_registered_rows.
  - unfold wrong_password in Hwrong.
    apply andb_true_iff in Hwrong as [Hknown Hwrong].
    destruct (email_registered_first _ _ Hknown)
      as ([id u] & rows & Hrows & Hu & Hmail).
    unfold serve, route, login, try_catch, bind.
    rewrite pool_query_ready by done. unfold select_user_by_email.
    rewrite Hrows. simpl in *.
    rewrite forallb_forall in Hwrong.
    specialize (Hwrong (id, u)). simpl in Hwrong. rewrite Hmail in Hwrong.
    simpl in Hwrong. unfold ret at 1.
    rewrite Hwrong; [done|].
    apply list_elem_of_In, elem_of_map_to_list. done.
Qed.

(** An instance: an unknown address, and Ann with Bob's password. *)
Lemma login_failures_alike_witness :
  ∃ failure,
    serve (P := Demo.platform) (Demo.at_time 50000)
      (PostLogin (Some "eve@x.com") (Some "pw1")) Demo.library
    = (Responded failure, Demo.library)
    ∧ serve (P := Demo.platform) (Demo.at_time 60000)
        (PostLogin (Some "Ann@X.com") (Some "pw2")) Demo.library
      = (Responded failure, Demo.library)
    ∧ failure = json 400 (JError "invalid").
Proof.
  apply (login_failures_alike (P := Demo.platform)); vm_compute; reflexivity.
Defined.

(** ** Decimal numerals *)

(** Membership of a given character in a given string, by evaluation. *)
Ltac by_evaluation :=
  first [ apply (bool_decide_unpack _); vm_compute; exact I
        | apply (bool_decide_eq_false_1 _); vm_compute; reflexivity ].

Lemma list_ascii_of_string_app a b :
  list_ascii_of_string (a +:+ b)
  = (list_ascii_of_string a ++ list_ascii_of_string b)%list.
Proof. induction a as [|c a IH]; [done|]. simpl. by rewrite IH. Qed.

Lemma pretty_N_char_numeral x : numeral_char (pretty_N_char x).
Proof.
  unfold pretty_N_char, numeral_char.
  repeat case_match; by_evaluation.
Qed.

Lemma pretty_N_go_chars x s c :
  c ∈ list_ascii_of_string (pretty_N_go x s) →
  numeral_char c ∨ c ∈ list_ascii_of_string s.
Proof.
  revert s. induction (N.lt_wf_0 x) as [x _ IH]; intros s.
  assert (x = 0 ∨ 0 < x)%N as [->|Hx] by lia.
  - rewrite pretty_N_go_0. auto.
  - rewrite pretty_N_go_step by done. intros Hc.
    apply IH in Hc as [Hc|Hc]; [by left| |by apply N.div_lt].
    simpl in Hc. apply elem_of_cons in Hc as [->|Hc]; [|by right].
    left. apply pretty_N_char_numeral.
Qed.

Lemma pretty_N_chars (x : N) c :
  c ∈ list_ascii_of_string (pretty x) → numeral_char c.
Proof.
  unfold pretty, pretty_N. case_decide.
  - intros [->|[]%elem_of_nil]%elem_of_cons. unfold numeral_char. by_evaluation.
  - intros Hc. apply pretty_N_go_chars in Hc as [Hc|Hc]; [done|].
    by apply elem_of_nil in Hc.
Qed.

(** [String(n)] is written with digits and the minus sign only. *)
Lemma String_of_int_chars n c :
  c ∈ list_ascii_of_string (String_of_int n) → numeral_char c.
Proof.
  unfold String_of_int, pretty, pretty_Z. destruct n as [|x|x].
  - intros [->|[]%elem_of_nil]%elem_of_cons. unfold numeral_char. by_evaluation.
  - apply (pretty_N_chars (N.pos x)).
  - rewrite list_ascii_of_string_app. simpl.
    intros [->|Hc]%elem_of_cons.
    + unfold numeral_char. by_evaluation.
    + by apply (pretty_N_chars (N.pos x)).
Qed.

Lemma String_of_int_not_null n : String_of_int n ≠ "null".
Proof.
  intros Hn.
  assert (Hc : "n"%char ∈ list_ascii_of_string (String_of_int n))
    by (rewrite Hn; by_evaluation).
  apply String_of_int_chars in Hc. revert Hc. unfold numeral_char.
  by_evaluation.
Qed.

(** The ownership test of the delete handler compares the two ids; a missing
    owner equals nobody. *)
Lemma owner_test owner requester :
  bool_decide (String_of_nullable owner ≠ String_of_int requester)
  = bool_decide (owner ≠ Some requester).
Proof.
  apply bool_decide_ext. destruct owner as [o|]; simpl.
  - unfold String_of_int. split; intros Hne Heq; apply Hne.
    + by simplify_eq.
    + f_equal. by apply (inj pretty).
  - split; [done|]. intros _ Heq. by eapply String_of_int_not_null.
Qed.

(** ** Delete *)

Section delete.
Context {P : Platform}.

Lemma db_ready_inv e s :
  db_ready e s = true →
  (∃ p, pool s = Some p) ∧ db_reachable e = true ∧ tables_exist s = true.
Proof.
  unfold db_ready. intros Hr.
  apply andb_true_iff in Hr as [Hr Ht]. apply andb_true_iff in Hr as [Hp Hd].
  by apply bool_decide_eq_true in Hp as [p Hp]; eauto.
Qed.

Lemma after_cleanup_frame e doc s :
  pool (after_cleanup e doc s) = pool s
  ∧ tables_exist (after_cleanup e doc s) = tables_exist s
  ∧ users (after_cleanup e doc s) = users s
  ∧ next_user_id (after_cleanup e doc s) = next_user_id s
  ∧ documents (after_cleanup e doc s) = documents s
  ∧ next_document_id (after_cleanup e doc s) = next_document_id s.
Proof. unfold after_cleanup. by repeat case_match. Qed.

(** The handler, step by step, while the database is available. *)
Lemma delete_doc_run e user id s :
  db_ready e s = true →
  delete_doc e user id s =
  match documents s !! id with
  | None => (inr (json 404 (JError "not found")), s)
  | Some doc =>
      if bool_decide (user_id doc ≠ Some (jwt_id user))
      then (inr (json 403 (JError "forbidden")), s)
      else (inr (json 200 JOk),
            set_documents (delete id (documents s)) (next_document_id s)
              (after_cleanup e doc s))
  end.
Proof.
  intros Hr. destruct (db_ready_inv _ _ Hr) as ([p Hp] & Hd & Ht).
  unfold delete_doc, try_catch, bind.
  rewrite pool_query_ready by done. unfold select_document_by_id.
  destruct (documents s !! id) as [doc|]; [|done]. simpl.
  rewrite owner_test. destruct (bool_decide (user_id doc ≠ _)); [done|].
  destruct (after_cleanup_frame e doc s) as (Hp' & Ht' & _ & _ & Hdocs & Hnext).
  assert (Hclean :
    (if bool_decide (file_path doc ≠ EmptyString)
     then try_catch (unlinkSync e (path_join __dirname (file_path doc)))
            (λ _, ret tt)
     else ret tt) s = (inr tt, after_cleanup e doc s)).
  { unfold after_cleanup, try_catch, unlinkSync, ret.
    repeat case_match; simplify_eq; done. }
  unfold try_catch in Hclean. rewrite Hclean. unfold pool_query, delete_document.
  by rewrite Hp', Hp, Hd, Ht', Ht, Hdocs, Hnext.
Qed.

(** The whole route for a requester whom the gate lets through. *)
Lemma delete_route_run e header user id s :
  db_ready e s = true →
  authMiddleware e header s = (inr (inr user), s) →
  serve e (DeleteDocument header id) s =
  match documents s !! id with
  | None => (Responded (json 404 (JError "not found")), s)
  | Some doc =>
      if bool_decide (user_id doc ≠ Some (jwt_id user))
      then (Responded (json 403 (JError "forbidden")), s)
      else (Responded (json 200 JOk),
            set_documents (delete id (documents s)) (next_document_id s)
              (after_cleanup e doc s))
  end.
Proof.
  intros Hr Hauth. unfold serve, route.
  rewrite (authenticated_accepted _ _ _ _ user), delete_doc_run by done.
  destruct (documents s !! id) as [doc|]; [|done].
  by destruct (bool_decide _).
Qed.

End delete.

(** C2.  A delete request with a valid token, while the database is
    available: 404 if no row has the id; 403 if the row belongs to somebody
    else; otherwise 200, the row is gone, and of the disk at most the blob of
    the row has been removed.  The blob is the file at [file_path], joined
    to the directory of the server as [path.join] normalises it: when the
    row names a file and the disk lets it go, the disk has lost exactly that
    file (nothing, if it was not there).  When the row names no file or the
    disk refuses the removal, the answer is 200 all the same, the row is
    gone and the disk is as it was. *)
Theorem delete_outcomes {P : Platform} e header user id s :
  db_ready e s = true →
  authMiddleware e header s = (inr (inr user), s) →
  (documents s !! id = None →
   serve e (DeleteDocument header id) s
   = (Responded (json 404 (JError "not found")), s))
  ∧ (∀ doc, documents s !! id = Some doc →
       user_id doc ≠ Some (jwt_id user) →
       serve e (DeleteDocument header id) s
       = (Responded (json 403 (JError "forbidden")), s))
  ∧ (∀ doc, documents s !! id = Some doc →
       user_id doc = Some (jwt_id user) →
       ∃ s', serve e (DeleteDocument header id) s
             = (Responded (json 200 JOk), s')
             ∧ documents s' = delete id (documents s)
             ∧ users s' = users s
             ∧ (files s' = files s
                ∨ files s'
                  = delete (path_join __dirname (file_path doc)) (files s))
             ∧ (unlink_fails e = true → files s' = files s)
             ∧ (file_path doc = EmptyString → files s' = files s)
             ∧ (unlink_fails e = false →
                file_path doc ≠ EmptyString →
                files s'
                = delete (path_join __dirname (file_path doc)) (files s))).
Proof.
  intros Hr Hauth. rewrite (delete_route_run e header user) by done.
  split_and!.
  - by intros ->.
  - intros doc -> Hother. by rewrite bool_decide_eq_true_2.
  - intros doc -> Hown.
    rewrite bool_decide_eq_false_2 by (by intros []).
    eexists. split; [done|].
    destruct (after_cleanup_frame e doc s) as (_ & _ & Hu & _).
    split_and!; [done|done|..]; simpl.
    + unfold after_cleanup; repeat case_match; auto; done.
    + unfold after_cleanup; repeat case_match; auto; done.
    + intros Hnone. unfold after_cleanup.
      by rewrite bool_decide_eq_false_2 by (by intros []).
    + intros Hdisk Hsome. unfold after_cleanup.
      rewrite bool_decide_eq_true_2, Hdisk by done.
      destruct (files s !! path_join __dirname (file_path doc)) eqn:Hfile;
        [done|].
      by rewrite delete_id.
Qed.

(** C2, an instance: Ann deletes her report.  While the disk refuses to
    unlink, the answer is 200, the row is gone and the blob is still there;
    with a disk that lets go, the blob is gone as well. *)
Lemma delete_outcomes_witness :
  (∃ s', serve (P := Demo.platform) (Demo.disk_refuses 200000)
           (DeleteDocument (Some ("Bearer " +:+ Demo.ann_token)) 1)
           Demo.library
         = (Responded (json 200 JOk), s')
         ∧ documents s' = delete 1 (documents Demo.library)
         ∧ files s' = files Demo.library)
  ∧ (∃ s', serve (P := Demo.platform) (Demo.at_time 200000)
             (DeleteDocument (Some ("Bearer " +:+ Demo.ann_token)) 1)
             Demo.library
           = (Responded (json 200 JOk), s')
           ∧ documents s' = delete 1 (documents Demo.library)
           ∧ files s'
             = delete "/srv/app/uploads/20000-7.pdf" (files Demo.library)).
Proof.
  split.
  - destruct (delete_outcomes (P := Demo.platform) (Demo.disk_refuses 200000)
                (Some ("Bearer " +:+ Demo.ann_token))
                (jwt_claims (Demo.at_time 100000) 1 "ann@x.com") 1
                Demo.library)
      as (_ & _ & Hown); [vm_compute; reflexivity..|].
    destruct (Hown Demo.report)
      as (s' & Hserve & Hdocs & _ & _ & Hfiles & _);
      [vm_compute; reflexivity..|].
    exists s'. split_and!; [done..|]. by apply Hfiles.
  - destruct (delete_outcomes (P := Demo.platform) (Demo.at_time 200000)
                (Some ("Bearer " +:+ Demo.ann_token))
                (jwt_claims (Demo.at_time 100000) 1 "ann@x.com") 1
                Demo.library)
      as (_ & _ & Hown); [vm_compute; reflexivity..|].
    destruct (Hown Demo.report)
      as (s' & Hserve & Hdocs & _ & _ & _ & _ & Hfiles);
      [vm_compute; reflexivity..|].
    exists s'. split_and!; [done..|]. by apply Hfiles.
Defined.

(** The path of a row is resolved as [path.join] does: a row whose path
    leaves the upload directory and comes back names the same blob. *)
Example delete_resolves_path :
  let roundabout :=
    {| user_id := Some 1; document_name := "a"; document_type := None;
       document_date := None;
       file_path := "uploads/../uploads/30000-8.txt";
       original_filename := "a.txt"; created_at := 30 |} in
  let s := set_documents (<[2 := roundabout]> (documents Demo.library)) 4
             Demo.library in
  files (serve (P := Demo.platform) (Demo.at_time 200000)
           (DeleteDocument (Some ("Bearer " +:+ Demo.ann_token)) 2) s).2
  = delete "/srv/app/uploads/30000-8.txt" (files Demo.library).
Proof. vm_compute. reflexivity. Qed.

(** C5.  Two failing logins that the caller can tell apart: the same
    request without a password, once for an address that no user row holds
    and once for Ann's registered address.  The first is answered 400
    [invalid]; the second ends in the catch block and is answered 500
    [internal], since [bcrypt.compare] rejects an undefined password and the
    handler, unlike the one of signup, does not test for a missing
    password.  The answer tells whether the address is registered. *)
Theorem login_failures_distinguished :
  email_registered Demo.library "eve@x.com" = false
  ∧ email_registered Demo.library "ann@x.com" = true
  ∧ serve (P := Demo.platform) (Demo.at_time 50000)
      (PostLogin (Some "eve@x.com") None) Demo.library
    = (Responded (json 400 (JError "invalid")), Demo.library)
  ∧ serve (P := Demo.platform) (Demo.at_time 50000)
      (PostLogin (Some "ann@x.com") None) Demo.library
    = (Responded (json 500 (JError "internal")), Demo.library)
  ∧ serve (P := Demo.platform) (Demo.at_time 50000)
      (PostSignup None (Some "ann@x.com") None) Demo.library
    = (Responded (json 400 (JError "email/password required")), Demo.library).
Proof. split_and!; vm_compute; reflexivity. Qed.

(** C6.  When somebody other than the owner asks to delete a document, the
    answer is 403 and the state after the request is the state before it:
    the row and the disk are untouched.  The owner's request that follows is
    answered 200 and removes the row, whatever the disk does. *)
Theorem forbidden_delete_is_atomic {P : Platform}
    eB headerB userB eA headerA userA id doc s :
  db_ready eB s = true →
  db_ready eA s = true →
  authMiddleware eB headerB s = (inr (inr userB), s) →
  authMiddleware eA headerA s = (inr (inr userA), s) →
  documents s !! id = Some doc →
  user_id doc = Some (jwt_id userA) →
  jwt_id userB ≠ jwt_id userA →
  let refused := serve eB (DeleteDocument headerB id) s in
  refused = (Responded (json 403 (JError "forbidden")), s)
  ∧ documents refused.2 !! id = Some doc
  ∧ files refused.2 = files s
  ∧ ∃ s', serve eA (DeleteDocument headerA id) refused.2
          = (Responded (json 200 JOk), s')
          ∧ documents s' !! id = None
          ∧ ∀ other, other ≠ id → documents s' !! other = documents s !! other.
Proof.
  intros HrB HrA HaB HaA Hdoc Hown Hne refused.
  assert (Hrefused : refused = (Responded (json 403 (JError "forbidden")), s)).
  { unfold refused. rewrite (delete_route_run eB headerB userB), Hdoc by done.
    rewrite bool_decide_eq_true_2; [done|]. rewrite Hown. by intros [=]. }
  rewrite Hrefused. simpl. split_and!; [done..|].
  rewrite (delete_route_run eA headerA userA), Hdoc by done.
  rewrite bool_decide_eq_false_2 by (by intros []).
  eexists. split; [done|]. simpl. split.
  - apply lookup_delete_eq.
  - intros other Hother. by apply lookup_delete_ne.
Qed.

(** C6, an instance: Bob asks to delete Ann's report, then Ann does. *)
Lemma forbidden_delete_is_atomic_witness :
  let refused :=
    serve (P := Demo.platform) (Demo.at_time 200000)
      (DeleteDocument (Some ("Bearer " +:+ Demo.bob_token)) 1) Demo.library in
  refused = (Responded (json 403 (JError "forbidden")), Demo.library)
  ∧ ∃ s', serve (P := Demo.platform) (Demo.disk_refuses 300000)
            (DeleteDocument (Some ("Bearer " +:+ Demo.ann_token)) 1) refused.2
          = (Responded (json 200 JOk), s')
          ∧ documents s' !! 1 = None.
Proof.
  intros refused.
  destruct (forbidden_delete_is_atomic (P := Demo.platform)
              (Demo.at_time 200000) (Some ("Bearer " +:+ Demo.bob_token))
              (jwt_claims (Demo.at_time 100000) 2 "bob@x.com")
              (Demo.disk_refuses 300000) (Some ("Bearer " +:+ Demo.ann_token))
              (jwt_claims (Demo.at_time 100000) 1 "ann@x.com")
              1 Demo.report Demo.library)
    as (Hrefused & _ & _ & s' & Hserve & Hgone & _);
    [vm_compute; reflexivity..|vm_compute; discriminate|].
  split; [exact Hrefused|]. exists s'. split; [exact Hserve|exact Hgone].
Defined.

(** ** Handlers, step by step *)

Section runs.
Context {P : Platform}.

Lemma pool_query_not_ready {A} e (statement : M A) s :
  db_ready e s = false →
  ∃ err, pool_query e statement s = (inl err, s)
         ∧ err ≠ DbError "ER_DUP_ENTRY".
Proof.
  unfold db_ready, pool_query. intros Hr.
  destruct (pool s) as [p|]; [|by eauto].
  rewrite bool_decide_eq_true_2 in Hr by eauto. simpl in Hr.
  destruct (db_reachable e); simpl in *; [|by eauto].
  rewrite Hr. simpl. by eauto.
Qed.

Lemma signup_run e name email password s :
  signup e name email password s =
  if negb (truthy email) || negb (truthy password)
  then (inr (json 400 (JError "email/password required")), s)
  else if negb (db_ready e s) then (inr internal_error, s)
  else
    let email' := default EmptyString email in
    if email_registered s email'
    then (inr (json 400 (JError "User already exists")), s)
    else
      let id := next_user_id s in
      let row := {| user_name := or_null name; user_email := email';
                    user_password_hash :=
                      bcrypt_hash (default EmptyString password) 10 (salt e);
                    user_created_at := now_s e |} in
      (inr (json 200 (JSignup (jwt_sign e id email') id email')),
       set_users (<[id := row]> (users s)) (id + 1) s).
Proof.
  unfold signup. destruct (negb (truthy email) || negb (truthy password)); [done|].
  unfold try_catch, bind. destruct (db_ready e s) eqn:Hr; simpl.
  - rewrite pool_query_ready by done. unfold insert_user.
    fold (email_registered s (default EmptyString email)).
    by destruct (email_registered s _).
  - destruct (pool_query_not_ready e
                (insert_user e (or_null name) (default EmptyString email)
                   (bcrypt_hash (default EmptyString password) 10 (salt e)))
                s Hr) as (err & -> & Herr).
    destruct err as [| code | | |]; try done.
    case_bool_decide; [by subst|done].
Qed.

Lemma well_formed_fresh s :
  well_formed s = true →
  users s !! next_user_id s = None
  ∧ documents s !! next_document_id s = None.
Proof.
  unfold well_formed. intros Hwf. apply andb_true_iff in Hwf as [Hu Hd].
  rewrite forallb_forall in Hu, Hd. split.
  - destruct (users s !! next_user_id s) as [u|] eqn:Hl; [|done].
    apply elem_of_map_to_list, list_elem_of_In, Hu in Hl.
    apply bool_decide_eq_true in Hl. simpl in Hl. lia.
  - destruct (documents s !! next_document_id s) as [d|] eqn:Hl; [|done].
    apply elem_of_map_to_list, list_elem_of_In, Hd in Hl.
    apply bool_decide_eq_true in Hl. simpl in Hl. lia.
Qed.

End runs.

(** C8.  A signup without an email or without a password is answered 400
    and changes nothing.  Otherwise, while the database is available: if a
    user row already holds the email, the answer is 400 with the
    duplicate-email error and the state is unchanged; if none does, exactly
    one row is added to the users, under an id that was free, holding the
    email, and the answer carries a token for that id and email, the id and
    the email. *)
Theorem signup_outcomes {P : Platform} e name email password s :
  (truthy email = false ∨ truthy password = false →
   serve e (PostSignup name email password) s
   = (Responded (json 400 (JError "email/password required")), s))
  ∧ ∀ email' password',
      email = Some email' → password = Some password' →
      truthy email = true → truthy password = true →
      db_ready e s = true → well_formed s = true →
      (email_registered s email' = true →
       serve e (PostSignup name email password) s
       = (Responded (json 400 (JError "User already exists")), s))
      ∧ (email_registered s email' = false →
         ∃ id row s',
           serve e (PostSignup name email password) s
           = (Responded (json 200 (JSignup (jwt_sign e id email') id email')), s')
           ∧ users s !! id = None
           ∧ users s' = <[id := row]> (users s)
           ∧ size (users s') = S (size (users s))
           ∧ user_email row = email'
           ∧ documents s' = documents s ∧ files s' = files s).
Proof.
  split.
  - intros Hmissing. unfold serve, route. rewrite signup_run.
    by destruct Hmissing as [-> | ->]; rewrite ?orb_true_r.
  - intros email' password' -> -> He Hp Hr Hwf.
    unfold serve, route. rewrite signup_run, He, Hp, Hr. simpl.
    destruct (well_formed_fresh s Hwf) as [Hfresh _]. split.
    + by intros ->.
    + intros ->. eexists _, _, _. split_and!; try done.
      simpl. by apply map_size_insert_None.
Qed.

(** C8, an instance: Carol signs up in Ann's library, then once more with
    her address in capitals. *)
Lemma signup_outcomes_witness :
  ∃ s', serve (P := Demo.platform) (Demo.at_time 70000)
          (PostSignup None (Some "carol@x.com") (Some "pw3")) Demo.library
        = (Responded
             (json 200 (JSignup (jwt_sign (P := Demo.platform)
                                   (Demo.at_time 70000) 3 "carol@x.com")
                          3 "carol@x.com")), s')
        ∧ size (users s') = 3%nat
        ∧ serve (P := Demo.platform) (Demo.at_time 80000)
            (PostSignup None (Some "CAROL@x.com") (Some "pw4")) s'
          = (Responded (json 400 (JError "User already exists")), s').
Proof.
  destruct (signup_outcomes (P := Demo.platform) (Demo.at_time 70000)
              None (Some "carol@x.com") (Some "pw3") Demo.library)
    as [_ Hfirst].
  destruct (Hfirst "carol@x.com" "pw3") as [_ Hnew];
    [vm_compute; reflexivity..|].
  destruct Hnew as (id & row & s' & Hserve & _ & Hs' & Hsize & _);
    [vm_compute; reflexivity|].
  assert (Hstate : s' = (serve (P := Demo.platform) (Demo.at_time 70000)
            (PostSignup None (Some "carol@x.com") (Some "pw3")) Demo.library).2)
    by (by rewrite Hserve).
  assert (Hid : id = 3).
  { assert (Hout := f_equal fst Hserve). vm_compute in Hout.
    by injection Hout as _ ->. }
  subst id. exists s'. split_and!; [done|by rewrite Hsize|].
  destruct (signup_outcomes (P := Demo.platform) (Demo.at_time 80000)
              None (Some "CAROL@x.com") (Some "pw4") s') as [_ Hsecond].
  destruct (Hsecond "CAROL@x.com" "pw4") as [Hdup _];
    [done|done|done|done|subst s'; vm_compute; reflexivity..|].
  apply Hdup. subst s'. vm_compute. reflexivity.
Defined.

Section more_runs.
Context {P : Platform}.

Lemma login_not_ready e email password s :
  db_ready e s = false → login e email password s = (inr internal_error, s).
Proof.
  intros Hr. unfold login, try_catch, bind.
  by destruct (pool_query_not_ready e (select_user_by_email email) s Hr)
    as (err & -> & _).
Qed.

Lemma login_total e email password s :
  ∃ response, login e email password s = (inr response, s).
Proof.
  destruct (db_ready e s) eqn:Hr; [|rewrite login_not_ready by done; eauto].
  unfold login, try_catch, bind. rewrite pool_query_ready by done.
  unfold select_user_by_email, bcrypt_compare_js, throw, ret.
  repeat case_match; simplify_eq; eauto.
Qed.

Lemma mydocs_not_ready e user s :
  db_ready e s = false → mydocs e user s = (inr internal_error, s).
Proof.
  intros Hr. unfold mydocs, try_catch, bind.
  by destruct (pool_query_not_ready e
                 (select_documents_by_user (jwt_id user)) s Hr)
    as (err & -> & _).
Qed.

Lemma mydocs_total e user s : ∃ response, mydocs e user s = (inr response, s).
Proof.
  destruct (db_ready e s) eqn:Hr; [|rewrite mydocs_not_ready by done; eauto].
  unfold mydocs, try_catch, bind. rewrite pool_query_ready by done.
  unfold select_documents_by_user, ret. eauto.
Qed.

Lemma search_not_ready e q type date s :
  db_ready e s = false → search e q type date s = (inr internal_error, s).
Proof.
  intros Hr. unfold search, try_catch, bind.
  by destruct (pool_query_not_ready e
                 (select_search (search_conditions q type date)) s Hr)
    as (err & -> & _).
Qed.

Lemma search_total e q type date s :
  ∃ response, search e q type date s = (inr response, s).
Proof.
  destruct (db_ready e s) eqn:Hr; [|rewrite search_not_ready by done; eauto].
  unfold search, try_catch, bind. rewrite pool_query_ready by done.
  unfold select_search, ret. eauto.
Qed.

Lemma delete_doc_not_ready e user id s :
  db_ready e s = false → delete_doc e user id s = (inr internal_error, s).
Proof.
  intros Hr. unfold delete_doc, try_catch, bind.
  by destruct (pool_query_not_ready e (select_document_by_id id) s Hr)
    as (err & -> & _).
Qed.

Lemma health_run e s :
  health e s =
  (inr (json 200
          match pool s with
          | Some _ =>
              if db_reachable e then JHealth true (Some true) None
              else JHealth true (Some false) (Some (connect_error e))
          | None => JHealth true (Some false) (Some "no-db-pool")
          end), s).
Proof.
  unfold health, try_catch, bind, pool_ping, ret.
  destruct (pool s); [|done]. by destruct (db_reachable e).
Qed.

Lemma upload_steps_run e user part name type date s :
  upload_steps e user part name type date s =
  match part with
  | None => (inr (json 400 (JError "file required")), s)
  | Some file =>
      if disk_write_fails e then (inr (json 500 ExpressErrorPage), s)
      else
        let p := path_join UPLOAD_DIR (filename e file) in
        let stored := set_files (<[p := content file]> (files s)) s in
        if db_ready e s then
          match users s !! jwt_id user with
          | Some _ =>
              (inr (json 200 JOk),
               set_documents
                 (<[next_document_id s :=
                      uploaded_row e user file name type date]> (documents s))
                 (next_document_id s + 1) stored)
          | None => (inr (json 500 (JError "upload failed")), stored)
          end
        else (inr (json 500 (JError "upload failed")), stored)
  end.
Proof.
  unfold upload_steps, try_catch, bind, upload_single.
  destruct part as [file|]; [|done].
  destruct (disk_write_fails e); [done|]. simpl.
  set (stored := set_files _ s).
  assert (Hsame : db_ready e stored = db_ready e s) by done.
  unfold upload, try_catch, bind. simpl.
  destruct (db_ready e s) eqn:Hr.
  - rewrite pool_query_ready by done. unfold insert_document. simpl.
    by destruct (users s !! jwt_id user).
  - by destruct (pool_query_not_ready e
                   (insert_document e (jwt_id user)
                      (or_else name (originalname file)) (or_null type)
                      (or_null date)
                      (replace_backslashes
                         (replace_double_backslashes
                            (path_relative __dirname
                               (path_join UPLOAD_DIR (filename e file)))))
                      (originalname file)) stored Hsame)
      as (err & -> & _).
Qed.

End more_runs.

(** ** Paths *)

Lemma append_assoc (a b c : string) : (a +:+ b) +:+ c = a +:+ b +:+ c.
Proof.
  induction a as [|x a IH]; [done|].
  change (String x ((a +:+ b) +:+ c) = String x (a +:+ b +:+ c)).
  by rewrite IH.
Qed.

Lemma contains_char_app c a b :
  contains_char c (a +:+ b) = contains_char c a || contains_char c b.
Proof.
  unfold contains_char. rewrite list_ascii_of_string_app.
  apply eq_true_iff_eq.
  rewrite orb_true_iff, !bool_decide_eq_true, elem_of_app. done.
Qed.

Lemma contains_char_false c s :
  contains_char c s = false ↔ c ∉ list_ascii_of_string s.
Proof. unfold contains_char. by rewrite bool_decide_eq_false. Qed.

Lemma after_last_chars sep s c :
  c ∈ list_ascii_of_string (after_last sep s) → c ∈ list_ascii_of_string s.
Proof.
  induction s as [|d s IH]; [done|]. simpl.
  repeat case_match; intros Hc; try done; right; auto.
Qed.

Lemma strip_trailing_chars sep s c :
  c ∈ list_ascii_of_string (strip_trailing sep s) → c ∈ list_ascii_of_string s.
Proof.
  induction s as [|d s IH]; [done|]. simpl.
  destruct (strip_trailing sep s) as [|x r].
  - case_decide; [by intros ?%elem_of_nil|].
    intros [->|[]%elem_of_nil]%elem_of_cons. left.
  - intros [->|Hc]%elem_of_cons; [left|right; auto].
Qed.

Lemma from_last_chars sep s r c :
  from_last sep s = Some r →
  c ∈ list_ascii_of_string r → c ∈ list_ascii_of_string s.
Proof.
  revert r. induction s as [|d s IH]; [done|]. simpl. intros r.
  destruct (from_last sep s) as [r'|].
  - intros [= <-] Hc. right. by eapply IH.
  - case_decide; [|done]. by intros [= <-].
Qed.

(** The extension is made of characters of the name. *)
Lemma extname_chars p c :
  c ∈ list_ascii_of_string (extname p) → c ∈ list_ascii_of_string p.
Proof.
  unfold extname.
  destruct (from_last "." (after_last "/" (strip_trailing "/" p)))
    as [ext|] eqn:Hext; [|by intros ?%elem_of_nil].
  repeat case_match; try (by intros ?%elem_of_nil).
  intros Hc.
  eapply strip_trailing_chars, after_last_chars, from_last_chars; done.
Qed.

Lemma after_last_no_separator sep s :
  sep ∉ list_ascii_of_string (after_last sep s).
Proof.
  induction s as [|c s IH]; simpl; [by intros ?%elem_of_nil|].
  case_bool_decide as Hs; [done|].
  case_decide as Hc; [done|].
  simpl. by intros [?|?]%elem_of_cons.
Qed.

(** The extension is cut from the base name: it holds no slash. *)
Lemma extname_no_slash p : "/"%char ∉ list_ascii_of_string (extname p).
Proof.
  unfold extname.
  destruct (from_last "." (after_last "/" (strip_trailing "/" p)))
    as [ext|] eqn:Hext; [|by intros ?%elem_of_nil].
  repeat case_match; try (by intros ?%elem_of_nil).
  intros Hc. eapply after_last_no_separator, from_last_chars; done.
Qed.

Lemma replace_backslashes_id s :
  contains_char "\" s = false → replace_backslashes s = s.
Proof.
  induction s as [|c s IH]; [done|].
  intros [Hc Hs]%contains_char_cons. simpl.
  rewrite decide_False by done. by rewrite IH.
Qed.

Lemma replace_double_backslashes_id s :
  contains_char "\" s = false → replace_double_backslashes s = s.
Proof.
  induction s as [|c s IH]; [done|].
  intros [Hc Hs]%contains_char_cons. simpl.
  destruct s as [|c' s]; [done|].
  rewrite decide_False by (by intros [-> _]). by rewrite IH.
Qed.

(** ** Paths *)

(** Splitting at a separator and joining with it. *)

Lemma split_nonempty sep s : split sep s ≠ [].
Proof.
  destruct s as [|c s]; simpl; [done|].
  case_decide; [done|]. by destruct (split sep s).
Qed.

Lemma split_app sep a b :
  split sep (a +:+ String sep b) = (split sep a ++ split sep b)%list.
Proof.
  induction a as [|c a IH].
  - simpl. by rewrite decide_True.
  - change (String c a +:+ String sep b) with (String c (a +:+ String sep b)).
    simpl. case_decide; [by rewrite IH|].
    rewrite IH. pose proof (split_nonempty sep a).
    by destruct (split sep a).
Qed.

Lemma split_parts sep s x : x ∈ split sep s → contains_char sep x = false.
Proof.
  revert x. induction s as [|c s IH]; intros x; simpl.
  - by intros ->%list_elem_of_singleton.
  - case_decide as Hc.
    + intros [->|Hx]%elem_of_cons; [done|auto].
    + destruct (split sep s) as [|p ps] eqn:Hs.
      * intros ->%list_elem_of_singleton. apply contains_char_cons. done.
      * intros [->|Hx]%elem_of_cons.
        -- apply contains_char_cons. split; [done|]. apply IH. left.
        -- apply IH. by right.
Qed.

Lemma concat_cons (sep x : string) y ys :
  String.concat sep (x :: y :: ys) = x +:+ sep +:+ String.concat sep (y :: ys).
Proof. done. Qed.

Lemma split_concat sep l :
  l ≠ [] → Forall (λ x, contains_char sep x = false) l →
  split sep (String.concat (String sep "") l) = l.
Proof.
  induction l as [|x l IH]; [done|]. intros _ Hl.
  inversion Hl as [|?? Hx Hl']; subst.
  destruct l as [|y ys]; [by apply split_no_separator|].
  rewrite concat_cons.
  change (String sep "" +:+ ?r) with (String sep r).
  rewrite split_app, IH by done. by rewrite split_no_separator.
Qed.

Lemma append_empty a b : a +:+ b = "" → a = "" ∧ b = "".
Proof. by destruct a. Qed.

Lemma concat_empty sep l :
  String.concat sep l = "" → sep ≠ "" → l = [] ∨ l = [""].
Proof.
  destruct l as [|x [|y ys]]; [by left|simpl; intros ->; by right|].
  rewrite concat_cons. intros [_ [? _]%append_empty]%append_empty. done.
Qed.

Lemma is_absolute_app a b :
  a ≠ "" → is_absolute (a +:+ b) = is_absolute a.
Proof. by destruct a. Qed.

Lemma is_absolute_false a :
  a ≠ "" → contains_char "/" a = false → is_absolute a = false.
Proof.
  destruct a as [|c a]; [done|]. intros _ [Hc _]%contains_char_cons.
  by destruct c as [[] [] [] [] [] [] [] []].
Qed.

Lemma ends_with_app c a b : b ≠ "" → ends_with c (a +:+ b) = ends_with c b.
Proof.
  intros Hb. induction a as [|x a IH]; [done|].
  change (String x a +:+ b) with (String x (a +:+ b)).
  simpl. rewrite IH. destruct (a +:+ b) eqn:Hab; [|done].
  by apply append_empty in Hab as [_ ?].
Qed.

Lemma ends_with_false c a : contains_char c a = false → ends_with c a = false.
Proof.
  induction a as [|x a IH]; [done|]. intros [Hx Ha]%contains_char_cons.
  simpl. destruct a; [|auto]. by apply bool_decide_eq_false.
Qed.

(** The loop of [normalizeString]. *)

Lemma normalize_segment_keeps a kept x :
  x ≠ "" → x ≠ "." → x ≠ ".." → normalize_segment a kept x = x :: kept.
Proof.
  intros H0 H1 H2. unfold normalize_segment.
  rewrite bool_decide_eq_false_2 by (by intros [|]).
  by rewrite bool_decide_eq_false_2.
Qed.

Lemma normalize_segment_plain a kept x :
  plain_segment x → normalize_segment a kept x = x :: kept.
Proof. intros (? & ? & ? & _). by apply normalize_segment_keeps. Qed.

Lemma foldl_normalize_plain a kept l :
  Forall plain_segment l →
  foldl (normalize_segment a) kept l = (reverse l ++ kept)%list.
Proof.
  intros Hl. revert kept. induction Hl as [|x l Hx Hl IH]; intros kept; [done|].
  simpl. rewrite normalize_segment_plain, IH, reverse_cons by done.
  by rewrite <-app_assoc.
Qed.

Lemma normalize_segments_app_plain a segments l :
  Forall plain_segment l →
  normalize_segments a (segments ++ l)
  = (normalize_segments a segments ++ l)%list.
Proof.
  intros Hl. unfold normalize_segments.
  rewrite foldl_app, foldl_normalize_plain by done.
  by rewrite reverse_app, reverse_involutive.
Qed.

Lemma normalize_segments_plain a l :
  Forall plain_segment l → normalize_segments a l = l.
Proof. intros Hl. by rewrite <-(app_nil_l l), normalize_segments_app_plain. Qed.

Lemma normalize_segment_ok a kept x :
  kept_ok a kept → kept_ok a (normalize_segment a kept x).
Proof.
  intros Hk. unfold normalize_segment.
  case_bool_decide as H1; [done|].
  case_bool_decide as H2.
  - destruct kept as [|y rest]; [destruct a; [|done]|].
    + apply Forall_singleton. by subst x.
    + case_bool_decide.
      * destruct a; [|done]. apply Forall_cons. by subst x.
      * by inversion Hk.
  - apply Forall_cons. split; [|done]. split_and!; [tauto..|done].
Qed.

Lemma foldl_normalize_ok a kept l :
  kept_ok a kept → kept_ok a (foldl (normalize_segment a) kept l).
Proof.
  revert kept. induction l as [|x l IH]; intros kept Hk; [done|].
  simpl. by apply IH, normalize_segment_ok.
Qed.

Lemma normalize_again_step a b kept x :
  (a = false → b = false) → kept_ok a kept →
  foldl (normalize_segment b) [] (reverse (normalize_segment a kept x))
  = normalize_segment b (foldl (normalize_segment b) [] (reverse kept)) x.
Proof.
  intros Hab Hk. unfold normalize_segment at 2 3.
  case_bool_decide as H1; [done|].
  case_bool_decide as H2.
  - subst x. destruct kept as [|y rest].
    + destruct a; [done|]. rewrite Hab by done. done.
    + inversion Hk as [|?? (Hy1 & Hy2 & Hy3) Hrest]; subst.
      case_bool_decide as Hy.
      * subst y. destruct a; [|by destruct Hy3].
        by rewrite (reverse_cons (".." :: rest)), foldl_app.
      * rewrite reverse_cons, foldl_app. simpl.
        rewrite normalize_segment_keeps by done.
        by rewrite bool_decide_eq_false_2.
  - rewrite reverse_cons, foldl_app. simpl.
    apply normalize_segment_keeps; [tauto..|done].
Qed.

Lemma normalize_again_foldl a b kept l :
  (a = false → b = false) → kept_ok a kept →
  foldl (normalize_segment b) [] (reverse (foldl (normalize_segment a) kept l))
  = foldl (normalize_segment b)
      (foldl (normalize_segment b) [] (reverse kept)) l.
Proof.
  intros Hab. revert kept. induction l as [|x l IH]; intros kept Hk; [done|].
  simpl. rewrite IH by by apply normalize_segment_ok.
  by rewrite normalize_again_step.
Qed.

(** Normalising what is normalised changes nothing, also when the second
    pass may no longer climb. *)
Lemma normalize_segments_again a b segments :
  (a = false → b = false) →
  normalize_segments b (normalize_segments a segments)
  = normalize_segments b segments.
Proof.
  intros Hab. unfold normalize_segments.
  rewrite normalize_again_foldl; [reflexivity|done|apply Forall_nil_2].
Qed.

Lemma normalize_segments_skip a segments :
  normalize_segments a ("" :: segments) = normalize_segments a segments.
Proof. done. Qed.

Lemma normalize_segment_parts a kept x y :
  y ∈ normalize_segment a kept x → y ∈ kept ∨ y = x.
Proof.
  unfold normalize_segment.
  case_bool_decide; [by left|].
  case_bool_decide as Hx; [|rewrite elem_of_cons; tauto].
  destruct kept as [|z rest]; [destruct a|case_bool_decide; [destruct a|]];
    rewrite ?elem_of_cons, ?elem_of_nil; subst x; tauto.
Qed.

Lemma foldl_normalize_parts a kept l y :
  y ∈ foldl (normalize_segment a) kept l → y ∈ kept ∨ y ∈ l.
Proof.
  revert kept. induction l as [|x l IH]; intros kept; simpl; [by left|].
  intros [[Hy| ->]%normalize_segment_parts|Hy]%IH.
  - by left.
  - right. left.
  - right. by right.
Qed.

(** The segments of a normalised path: not empty, without a slash. *)
Lemma normalize_segments_parts a p y :
  y ∈ normalize_segments a (split "/" p) →
  y ≠ "" ∧ contains_char "/" y = false.
Proof.
  unfold normalize_segments. rewrite elem_of_reverse. intros Hy. split.
  - pose proof (foldl_normalize_ok a [] (split "/" p) (Forall_nil_2 _)) as Hk.
    unfold kept_ok in Hk. rewrite Forall_forall in Hk.
    by destruct (Hk _ Hy).
  - apply foldl_normalize_parts in Hy as [[]%elem_of_nil|Hy].
    by eapply split_parts.
Qed.

(** Paths in normal form. *)

Lemma plain_good x : plain_segment x → good_segment x.
Proof. by intros (? & _ & _ & ?). Qed.

Lemma append_nil_r (s : string) : s +:+ "" = s.
Proof.
  induction s as [|c s IH]; [done|].
  change (String c (s +:+ "") = String c s). by rewrite IH.
Qed.

Lemma concat_good_nonempty l :
  l ≠ [] → Forall good_segment l → String.concat "/" l ≠ "".
Proof.
  intros Hl Hg Hc. apply concat_empty in Hc as [->| ->]; [done| |done].
  by apply Forall_singleton in Hg as [? _].
Qed.

Lemma concat_good_relative l :
  Forall good_segment l → is_absolute (String.concat "/" l) = false.
Proof.
  destruct l as [|x [|y ys]]; [done|..]; intros Hg;
    inversion Hg as [|?? [Hx Hs] _]; subst.
  - by apply is_absolute_false.
  - rewrite concat_cons, is_absolute_app by done. by apply is_absolute_false.
Qed.

Lemma concat_good_end l :
  Forall good_segment l → ends_with "/" (String.concat "/" l) = false.
Proof.
  induction l as [|x l IH]; [done|]. intros Hg.
  inversion Hg as [|?? [Hx Hs] Hl]; subst.
  destruct l as [|y ys]; [by apply ends_with_false|].
  rewrite concat_cons, <-append_assoc.
  rewrite ends_with_app; [by apply IH|].
  apply concat_good_nonempty; done.
Qed.

Lemma split_concat_good l :
  l ≠ [] → Forall good_segment l → split "/" (String.concat "/" l) = l.
Proof.
  intros Hl Hg. apply (split_concat "/"); [done|].
  eapply Forall_impl; [exact Hg|]. by intros x [_ ?].
Qed.

Lemma normal_segments_good p : Forall good_segment (normal_segments p).
Proof.
  apply Forall_forall. intros x Hx.
  by apply normalize_segments_parts in Hx.
Qed.

Lemma path_normalize_shape p :
  p ≠ "" → ends_with "/" p = false → normal_segments p ≠ [] →
  path_normalize p = path_of (is_absolute p) (normal_segments p).
Proof.
  intros Hp Hend Hsegs. unfold path_normalize, normalizeString.
  rewrite bool_decide_eq_false_2 by done. cbv zeta.
  fold (normal_segments p).
  rewrite bool_decide_eq_false_2
    by (apply concat_good_nonempty; [done|apply normal_segments_good]).
  rewrite Hend. unfold path_of. by rewrite append_nil_r.
Qed.

Lemma is_absolute_path_of absolute l :
  Forall good_segment l → is_absolute (path_of absolute l) = absolute.
Proof.
  intros Hg. unfold path_of. destruct absolute; [done|].
  by apply concat_good_relative.
Qed.

Lemma split_path_of absolute l :
  l ≠ [] → Forall good_segment l →
  split "/" (path_of absolute l)
  = ((if absolute then [""] else []) ++ l)%list.
Proof.
  intros Hl Hg. unfold path_of. destruct absolute.
  - change ("/" +:+ ?r) with ("" +:+ String "/" r).
    by rewrite split_app, split_concat_good.
  - by apply split_concat_good.
Qed.

(** Joining plain segments to a path appends them to its segments. *)
Lemma path_join_plain a l :
  l ≠ [] → Forall plain_segment l →
  path_join a (String.concat "/" l)
  = path_of (is_absolute a) (normal_segments a ++ l).
Proof.
  intros Hl Hplain.
  assert (Hg : Forall good_segment l).
  { eapply Forall_impl; [exact Hplain|]. apply plain_good. }
  pose proof (concat_good_nonempty l Hl Hg) as Hb.
  assert (Hlast : ∀ segments : list string, (segments ++ l)%list ≠ []).
  { intros segments Hnil. by apply app_eq_nil in Hnil as [_ ?]. }
  unfold path_join. case_bool_decide as Ha.
  - subst a.
    assert (Hsegs : normal_segments (String.concat "/" l) = l).
    { unfold normal_segments. rewrite concat_good_relative by done.
      rewrite split_concat_good by done. by apply normalize_segments_plain. }
    rewrite path_normalize_shape.
    + rewrite Hsegs, concat_good_relative by done. done.
    + done.
    + by apply concat_good_end.
    + by rewrite Hsegs.
  - rewrite bool_decide_eq_false_2 by done.
    set (b := String.concat "/" l) in *.
    assert (Habs : is_absolute (a +:+ "/" +:+ b) = is_absolute a)
      by by apply is_absolute_app.
    assert (Hsegs : normal_segments (a +:+ "/" +:+ b)
                    = (normal_segments a ++ l)%list).
    { unfold normal_segments. rewrite Habs.
      change ("/" +:+ b) with (String "/" b).
      rewrite split_app. unfold b. rewrite split_concat_good by done.
      by apply normalize_segments_app_plain. }
    rewrite path_normalize_shape.
    + by rewrite Hsegs, Habs.
    + by destruct a.
    + rewrite <-append_assoc, ends_with_app by done.
      by apply concat_good_end.
    + rewrite Hsegs. apply Hlast.
Qed.

(** The segments of a path to which plain segments were joined. *)
Lemma normalize_joined b a l :
  (is_absolute a = true → b = false) →
  l ≠ [] → Forall plain_segment l →
  normalize_segments b
    (split "/" (path_of (is_absolute a) (normal_segments a ++ l)))
  = (normalize_segments b (split "/" a) ++ l)%list.
Proof.
  intros Hb Hl Hplain.
  assert (Hg : Forall good_segment (normal_segments a ++ l)).
  { apply Forall_app. split; [apply normal_segments_good|].
    eapply Forall_impl; [exact Hplain|]. apply plain_good. }
  rewrite split_path_of; [|by intros [_ ?]%app_eq_nil|done].
  assert (Hskip : normalize_segments b
                    ((if is_absolute a then [""] else [])
                       ++ normal_segments a ++ l)
                  = normalize_segments b (normal_segments a ++ l))
    by by destruct (is_absolute a).
  rewrite Hskip, normalize_segments_app_plain by done.
  unfold normal_segments. rewrite normalize_segments_again; [done|].
  destruct (is_absolute a); [auto|done].
Qed.

Lemma path_join_join a l x :
  l ≠ [] → Forall plain_segment l → plain_segment x →
  path_join (path_join a (String.concat "/" l)) x
  = path_join a (String.concat "/" (l ++ [x])).
Proof.
  intros Hl Hplain Hx.
  assert (Hg : Forall good_segment (normal_segments a ++ l)).
  { apply Forall_app. split; [apply normal_segments_good|].
    eapply Forall_impl; [exact Hplain|]. apply plain_good. }
  assert (Hx' : Forall plain_segment [x]) by by apply Forall_singleton.
  assert (Hlx : Forall plain_segment (l ++ [x])) by by apply Forall_app.
  rewrite (path_join_plain a l) by done.
  change x with (String.concat "/" [x]) at 1.
  rewrite path_join_plain by done.
  rewrite (path_join_plain a (l ++ [x])); [|by intros [_ ?]%app_eq_nil|done].
  rewrite is_absolute_path_of by done.
  unfold normal_segments at 1. rewrite is_absolute_path_of by done.
  rewrite normalize_joined by (done || by destruct (is_absolute a)).
  by rewrite <-app_assoc.
Qed.

Lemma path_difference_below from l : path_difference from (from ++ l) = l.
Proof.
  induction from as [|f from IH]; simpl; [by destruct l|].
  by rewrite decide_True.
Qed.

(** A path joined from plain segments lies that many segments below. *)
Lemma path_relative_join a l :
  l ≠ [] → Forall plain_segment l →
  path_relative a (path_join a (String.concat "/" l)) = String.concat "/" l.
Proof.
  intros Hl Hplain. unfold path_relative, path_resolve.
  rewrite path_join_plain, normalize_joined by done.
  by rewrite path_difference_below.
Qed.

Section paths.
Context {P : Platform}.

(** The generated name has no backslash unless the uploaded name brings
    one. *)
Lemma filename_no_backslash e file :
  contains_char "\" (originalname file) = false →
  contains_char "\" (filename e file) = false.
Proof.
  rewrite !contains_char_false. intros Horig. unfold filename.
  rewrite !list_ascii_of_string_app, !elem_of_app.
  intros [[Hc|[Hc|Hc]]|Hc].
  - apply String_of_int_chars in Hc. revert Hc. unfold numeral_char.
    by_evaluation.
  - revert Hc. by_evaluation.
  - apply String_of_int_chars in Hc. revert Hc. unfold numeral_char.
    by_evaluation.
  - by apply extname_chars in Hc.
Qed.

(** The generated name is a plain segment: it holds a hyphen and, as the
    extension is cut from the base name, no slash. *)
Lemma filename_plain e file : plain_segment (filename e file).
Proof.
  assert (Hhyphen : "-"%char ∈ list_ascii_of_string (filename e file)).
  { unfold filename. rewrite !list_ascii_of_string_app, !elem_of_app.
    left. right. left. left. }
  unfold plain_segment. split_and!.
  - intros Heq. rewrite Heq in Hhyphen. revert Hhyphen. by_evaluation.
  - intros Heq. rewrite Heq in Hhyphen. revert Hhyphen. by_evaluation.
  - intros Heq. rewrite Heq in Hhyphen. revert Hhyphen. by_evaluation.
  - apply contains_char_false. unfold filename.
    rewrite !list_ascii_of_string_app, !elem_of_app.
    intros [[Hc|[Hc|Hc]]|Hc].
    + apply String_of_int_chars in Hc. revert Hc. unfold numeral_char.
      by_evaluation.
    + revert Hc. by_evaluation.
    + apply String_of_int_chars in Hc. revert Hc. unfold numeral_char.
      by_evaluation.
    + by apply extname_no_slash in Hc.
Qed.

Lemma uploads_plain : plain_segment "uploads".
Proof. by split_and!. Qed.

(** The place of a blob, seen from the directory of the server. *)
Lemma upload_path e file :
  path_join UPLOAD_DIR (filename e file)
  = path_join __dirname ("uploads/" +:+ filename e file).
Proof.
  unfold UPLOAD_DIR.
  change "uploads" with (String.concat "/" ["uploads"]).
  rewrite path_join_join;
    [done|done|apply Forall_singleton, uploads_plain|apply filename_plain].
Qed.

(** The path that the handler stores for a blob below [UPLOAD_DIR]. *)
Lemma stored_path e file :
  contains_char "\" (originalname file) = false →
  replace_backslashes
    (replace_double_backslashes
       (path_relative __dirname (path_join UPLOAD_DIR (filename e file))))
  = "uploads/" +:+ filename e file.
Proof.
  intros Horig. rewrite upload_path.
  change ("uploads/" +:+ filename e file)
    with (String.concat "/" ["uploads"; filename e file]).
  rewrite path_relative_join;
    [|done
     |by apply Forall_cons; split;
        [apply uploads_plain|apply Forall_singleton, filename_plain]].
  change (String.concat "/" ["uploads"; filename e file])
    with ("uploads/" +:+ filename e file).
  apply filename_no_backslash with (e := e) in Horig.
  assert (Hclean : contains_char "\" ("uploads/" +:+ filename e file) = false).
  { rewrite contains_char_app, Horig. done. }
  rewrite (replace_double_backslashes_id _ Hclean).
  by rewrite (replace_backslashes_id _ Hclean).
Qed.

(** Resolved against the directory of the server, the stored path is the
    place of the blob. *)
Lemma stored_path_resolves e file :
  path_join __dirname ("uploads/" +:+ filename e file)
  = path_join UPLOAD_DIR (filename e file).
Proof. by rewrite upload_path. Qed.

End paths.

(** C9.  Every document row that an upload request creates, for an uploaded
    name without backslashes as multer delivers it, stores the path
    [uploads/<generated name>]: it is not absolute, and resolved against the
    directory of the server it is the place, directly below the upload
    directory, where the request has just written the content of the
    file. *)
Theorem upload_row_invariant {P : Platform} e header part name type date s :
  (∀ file, part = Some file →
           contains_char "\" (originalname file) = false) →
  let s' := (serve e (PostUpload header part name type date) s).2 in
  ∀ id d,
    documents s' !! id = Some d →
    documents s !! id ≠ Some d →
    ∃ file,
      part = Some file
      ∧ file_path d = "uploads/" +:+ filename e file
      ∧ is_absolute (file_path d) = false
      ∧ path_join __dirname (file_path d)
        = path_join UPLOAD_DIR (filename e file)
      ∧ files s' !! path_join __dirname (file_path d) = Some (content file).
Proof.
  intros Hname s' id d. subst s'.
  unfold serve, route, upload_route.
  destruct (authMiddleware_total e header s) as [[rejection|user] Hauth].
  { rewrite (authenticated_rejected _ _ _ _ _ Hauth). done. }
  rewrite (authenticated_accepted _ _ _ _ _ Hauth), upload_steps_run.
  destruct part as [file|]; [|done].
  destruct (disk_write_fails e); [done|].
  destruct (db_ready e s); [|done].
  destruct (users s !! jwt_id user); [|done].
  simpl. intros Hnew Hold.
  destruct (decide (id = next_document_id s)) as [->|Hid];
    [|by rewrite lookup_insert_ne in Hnew].
  rewrite lookup_insert_eq in Hnew. injection Hnew as <-.
  exists file. unfold uploaded_row. cbn [file_path].
  rewrite stored_path by auto. split_and!; [done..| |].
  - apply stored_path_resolves.
  - rewrite stored_path_resolves. apply lookup_insert_eq.
Qed.

(** C9, an instance: Ann uploads [Minutes.DOCX] into her library. *)
Lemma upload_row_invariant_witness :
  let s' := (serve (P := Demo.platform) (Demo.at_time 90000)
               (PostUpload (Some ("Bearer " +:+ Demo.ann_token))
                  (Some {| originalname := "Minutes.DOCX"; content := "PK" |})
                  None (Some "minutes") None) Demo.library).2 in
  ∃ d, documents s' !! 4 = Some d
       ∧ file_path d = "uploads/90000-123456789.DOCX"
       ∧ files s' !! "/srv/app/uploads/90000-123456789.DOCX" = Some "PK".
Proof.
  intros s'.
  destruct (documents s' !! 4) as [d|] eqn:Hd; [|vm_compute in Hd; done].
  destruct (upload_row_invariant (P := Demo.platform) (Demo.at_time 90000)
              (Some ("Bearer " +:+ Demo.ann_token))
              (Some {| originalname := "Minutes.DOCX"; content := "PK" |})
              None (Some "minutes") None Demo.library) with (id := 4) (d := d)
    as (file & Hfile & Hpath & _ & Hresolved & Hblob).
  - intros file [= <-]. vm_compute. reflexivity.
  - exact Hd.
  - vm_compute. discriminate.
  - injection Hfile as <-. exists d. split; [done|].
    rewrite Hpath in Hblob. split; [exact Hpath|exact Hblob].
Defined.

(** ** What any request may do to the tables *)

Section frame.
Context {P : Platform}.

Lemma authMiddleware_rejection e header s rejection :
  authMiddleware e header s = (inr (inl rejection), s) →
  ∃ message, rejection = json 401 (JError message).
Proof.
  destruct (truthy header) eqn:Hh.
  - destruct (decide (length (split " "%char (default EmptyString header))
                      = 2%nat)) as [Hl|Hl].
    + rewrite authMiddleware_verify by done.
      repeat case_match; intros; simplify_eq; eauto.
    + rewrite authMiddleware_bad by done. intros; simplify_eq; eauto.
  - rewrite authMiddleware_missing by done. intros; simplify_eq; eauto.
Qed.

Lemma degraded_not_ready e s :
  pool s = None ∨ db_reachable e = false → db_ready e s = false.
Proof.
  unfold db_ready. intros [Hp | ->].
  - rewrite bool_decide_eq_false_2; [done|]. rewrite Hp. by intros [? ?].
  - by rewrite andb_false_r.
Qed.

(** Every request is answered; the users change by at most one new row. *)
Lemma serve_users e r s :
  ∃ response s',
    serve e r s = (Responded response, s')
    ∧ pool s' = pool s ∧ tables_exist s' = tables_exist s
    ∧ ((users s' = users s ∧ next_user_id s' = next_user_id s)
       ∨ ∃ row, users s' = <[next_user_id s := row]> (users s)
                ∧ next_user_id s' = next_user_id s + 1).
Proof.
  unfold serve. destruct r as [|name email password|email password
    |header part name type date|header|header id|q type date]; simpl.
  - rewrite health_run. eauto 10.
  - rewrite signup_run. cbv zeta.
    destruct (_ || _); [by eauto 10|].
    destruct (negb _); [by eauto 10|].
    destruct (email_registered _ _); [by eauto 10|].
    eexists _, _. split; [done|]. simpl. eauto 10.
  - destruct (login_total e email password s) as [response ->]. eauto 10.
  - unfold upload_route.
    destruct (authMiddleware_total e header s) as [[rejection|user] Hauth].
    + rewrite (authenticated_rejected _ _ _ _ _ Hauth). eauto 10.
    + rewrite (authenticated_accepted _ _ _ _ _ Hauth), upload_steps_run.
      cbv zeta. destruct part as [file|]; [|by eauto 10].
      destruct (disk_write_fails e); [by eauto 10|].
      destruct (db_ready e s);
        [destruct (users s !! jwt_id user)|];
        (eexists _, _; split; [done|]; simpl; eauto 10).
  - destruct (authMiddleware_total e header s) as [[rejection|user] Hauth].
    + rewrite (authenticated_rejected _ _ _ _ _ Hauth). eauto 10.
    + rewrite (authenticated_accepted _ _ _ _ _ Hauth).
      destruct (mydocs_total e user s) as [response ->]. eauto 10.
  - destruct (authMiddleware_total e header s) as [[rejection|user] Hauth].
    + rewrite (authenticated_rejected _ _ _ _ _ Hauth). eauto 10.
    + rewrite (authenticated_accepted _ _ _ _ _ Hauth).
      destruct (db_ready e s) eqn:Hr.
      * rewrite delete_doc_run by done.
        destruct (documents s !! id) as [doc|]; [|by eauto 10].
        destruct (bool_decide _); [by eauto 10|].
        destruct (after_cleanup_frame e doc s) as (? & ? & ? & ? & _).
        eexists _, _. split; [done|]. simpl. eauto.
      * rewrite delete_doc_not_ready by done. eauto 10.
  - destruct (search_total e q type date s) as [response ->]. eauto 10.
Qed.

(** The documents change by at most one new row under the next id, or by
    the removal of one row that has an owner. *)
Lemma serve_documents e r s :
  let s' := (serve e r s).2 in
  (documents s' = documents s ∧ next_document_id s' = next_document_id s)
  ∨ (∃ row, documents s' = <[next_document_id s := row]> (documents s)
            ∧ next_document_id s' = next_document_id s + 1)
  ∨ (∃ id doc owner,
       documents s !! id = Some doc ∧ user_id doc = Some owner
       ∧ documents s' = delete id (documents s)
       ∧ next_document_id s' = next_document_id s).
Proof.
  unfold serve. destruct r as [|name email password|email password
    |header part name type date|header|header id|q type date]; simpl.
  - rewrite health_run. auto.
  - rewrite signup_run. cbv zeta.
    destruct (_ || _); [by auto|]. destruct (negb _); [by auto|].
    destruct (email_registered _ _); simpl; auto.
  - destruct (login_total e email password s) as [response ->]. auto.
  - unfold upload_route.
    destruct (authMiddleware_total e header s) as [[rejection|user] Hauth].
    + rewrite (authenticated_rejected _ _ _ _ _ Hauth). auto.
    + rewrite (authenticated_accepted _ _ _ _ _ Hauth), upload_steps_run.
      cbv zeta. destruct part as [file|]; [|by auto].
      destruct (disk_write_fails e); [by auto|].
      destruct (db_ready e s);
        [destruct (users s !! jwt_id user)|]; simpl; eauto.
  - destruct (authMiddleware_total e header s) as [[rejection|user] Hauth].
    + rewrite (authenticated_rejected _ _ _ _ _ Hauth). auto.
    + rewrite (authenticated_accepted _ _ _ _ _ Hauth).
      destruct (mydocs_total e user s) as [response ->]. auto.
  - destruct (authMiddleware_total e header s) as [[rejection|user] Hauth].
    + rewrite (authenticated_rejected _ _ _ _ _ Hauth). auto.
    + rewrite (authenticated_accepted _ _ _ _ _ Hauth).
      destruct (db_ready e s) eqn:Hr.
      * rewrite delete_doc_run by done.
        destruct (documents s !! id) as [doc|] eqn:Hdoc; [|auto].
        case_bool_decide as Hown; [auto|]. simpl.
        right. right. eauto 10.
      * rewrite delete_doc_not_ready by done. auto.
  - destruct (search_total e q type date s) as [response ->]. auto.
Qed.

Lemma well_formed_spec s :
  well_formed s = true ↔
  (∀ k u, users s !! k = Some u → k < next_user_id s)
  ∧ (∀ k d, documents s !! k = Some d → k < next_document_id s).
Proof.
  unfold well_formed. rewrite andb_true_iff, !forallb_forall.
  split; intros [Hu Hd]; split.
  - intros k u Hk. apply elem_of_map_to_list, list_elem_of_In, Hu in Hk.
    by apply bool_decide_eq_true in Hk.
  - intros k d Hk. apply elem_of_map_to_list, list_elem_of_In, Hd in Hk.
    by apply bool_decide_eq_true in Hk.
  - intros [k u] Hk%list_elem_of_In%elem_of_map_to_list.
    apply bool_decide_eq_true. eauto.
  - intros [k d] Hk%list_elem_of_In%elem_of_map_to_list.
    apply bool_decide_eq_true. eauto.
Qed.

(** The counters stay above the ids. *)
Lemma serve_well_formed e r s :
  well_formed s = true → well_formed (serve e r s).2 = true.
Proof.
  rewrite !well_formed_spec. intros [Hu Hd].
  destruct (serve_users e r s) as (response & s' & Hserve & _ & _ & Husers).
  pose proof (serve_documents e r s) as Hdocs. rewrite Hserve in *.
  simpl in *. split.
  - intros k u. destruct Husers as [[-> ->]|(row & -> & ->)]; [by eauto|].
    intros [[-> _]|[_ Hk]]%lookup_insert_Some; [lia|].
    apply Hu in Hk. lia.
  - intros k d.
    destruct Hdocs as [[-> ->]|[(row & -> & ->)|(id & doc & o & _ & _ & -> & ->)]].
    + by eauto.
    + intros [[-> _]|[_ Hk]]%lookup_insert_Some; [lia|].
      apply Hd in Hk. lia.
    + intros [_ Hk]%lookup_delete_Some. eauto.
Qed.

Lemma serve_all_well_formed session s :
  well_formed s = true → well_formed (serve_all session s) = true.
Proof.
  revert s. induction session as [|[e r] session IH]; intros s Hwf; [done|].
  simpl. by apply IH, serve_well_formed.
Qed.

(** A document without owner outlives every request. *)
Lemma serve_keeps_orphan e r s id doc :
  well_formed s = true →
  documents s !! id = Some doc →
  user_id doc = None →
  documents (serve e r s).2 !! id = Some doc.
Proof.
  intros [_ Hd]%well_formed_spec Hdoc Horphan.
  destruct (serve_documents e r s)
    as [[-> _]|[(row & -> & _)|(id' & doc' & o & Hdoc' & Ho & -> & _)]].
  - done.
  - rewrite lookup_insert_ne; [done|]. apply Hd in Hdoc. lia.
  - rewrite lookup_delete_ne; [done|]. intros ->. congruence.
Qed.

End frame.

(** Removing a user by hand leaves the user's documents without owner. *)
Lemma admin_delete_user_orphans uid s id doc :
  documents s !! id = Some doc →
  user_id doc = Some uid →
  ∃ doc', documents (admin_delete_user uid s) !! id = Some doc'
          ∧ user_id doc' = None
          ∧ file_path doc' = file_path doc.
Proof.
  intros Hdoc Hown. unfold admin_delete_user. simpl.
  rewrite lookup_fmap, Hdoc. simpl.
  rewrite bool_decide_eq_true_2 by done. eauto.
Qed.

(** C10.  A document whose owner is null stays in the table through every
    sequence of requests, and whenever the database is available a delete
    request for it by any requester whom the gate lets through is answered
    403 and changes nothing. *)
Theorem orphan_never_deleted {P : Platform} s id doc :
  well_formed s = true →
  documents s !! id = Some doc →
  user_id doc = None →
  ∀ session : list (env * request),
    let s' := serve_all session s in
    documents s' !! id = Some doc
    ∧ ∀ e header user,
        db_ready e s' = true →
        authMiddleware e header s' = (inr (inr user), s') →
        serve e (DeleteDocument header id) s'
        = (Responded (json 403 (JError "forbidden")), s').
Proof.
  intros Hwf Hdoc Horphan session s'.
  assert (Hkept : well_formed s' = true ∧ documents s' !! id = Some doc).
  { subst s'. revert s Hwf Hdoc.
    induction session as [|[e r] session IH]; intros s Hwf Hdoc; [done|].
    simpl. apply IH.
    - by apply serve_well_formed.
    - by apply serve_keeps_orphan. }
  destruct Hkept as [_ Hkept]. split; [done|].
  intros e header user Hr Hauth.
  rewrite (delete_route_run e header user), Hkept by done.
  rewrite bool_decide_eq_true_2; [done|]. by rewrite Horphan.
Qed.

(** C10, an instance: the document without owner in Ann's library, after
    Ann and Bob have each asked to delete it. *)
Lemma orphan_never_deleted_witness :
  let s' :=
    serve_all (P := Demo.platform)
      [(Demo.at_time 200000,
        DeleteDocument (Some ("Bearer " +:+ Demo.ann_token)) 3);
       (Demo.at_time 300000,
        DeleteDocument (Some ("Bearer " +:+ Demo.bob_token)) 3)]
      Demo.library in
  documents s' !! 3 = Some Demo.orphan
  ∧ serve (P := Demo.platform) (Demo.at_time 400000)
      (DeleteDocument (Some ("Bearer " +:+ Demo.ann_token)) 3) s'
    = (Responded (json 403 (JError "forbidden")), s').
Proof.
  intros s'.
  destruct (orphan_never_deleted (P := Demo.platform) Demo.library 3
              Demo.orphan)
    with (session :=
      [(Demo.at_time 200000,
        DeleteDocument (Some ("Bearer " +:+ Demo.ann_token)) 3);
       (Demo.at_time 300000,
        DeleteDocument (Some ("Bearer " +:+ Demo.bob_token)) 3)])
    as [Hkept Hforbidden]; [vm_compute; reflexivity..|].
  split; [exact Hkept|].
  apply (Hforbidden (Demo.at_time 400000) _
           (jwt_claims (Demo.at_time 100000) 1 "ann@x.com"));
    vm_compute; reflexivity.
Defined.

(** ** Start-up and degraded operation *)

Lemma startup_run created e s :
  pool s = None →
  db_reachable e = false →
  startup created e s
  = (inr tt, match created with
             | inr p => set_pool (Some p) s
             | inl _ => s
             end).
Proof.
  intros Hp Hd. unfold startup, initPool, try_catch, bind, throw, ret.
  destruct created as [err|p]; simpl.
  - by rewrite Hp.
  - unfold pool_ping, ensureTables, try_catch, bind, pool_ping. simpl.
    by rewrite Hd.
Qed.

(** C7, as stated, fails: with the database unreachable at start-up the pool
    that [createPool] returned stays in the variable. *)
Lemma pool_unset_counterexample :
  db_reachable (Demo.offline 0) = false
  ∧ pool Demo.cold = None
  ∧ pool (startup (inr Demo.the_pool) (Demo.offline 0) Demo.cold).2
    = Some Demo.the_pool.
Proof. split_and!; vm_compute; reflexivity. Qed.

(** C7, as amended.  With the database unreachable, start-up ends without
    an exception; the pool variable is unset only when creating the pool
    itself failed, and otherwise holds the pool; nothing stored changes.
    Afterwards, in every state without pool and whenever the database does
    not answer, every request is answered and none ends in an unhandled
    exception: the health check with 200 and [db_connected: false], every
    operation on the tables with a generic 500, unless it was refused
    before it reached the database (401 by the gate, 400 for missing
    fields); no row is added or removed. *)
Theorem degraded_not_crashed {P : Platform} :
  (∀ created e s,
     pool s = None → db_reachable e = false →
     ∃ s', startup created e s = (inr tt, s')
           ∧ pool s' = match created with
                       | inr p => Some p
                       | inl _ => None
                       end
           ∧ tables_exist s' = tables_exist s
           ∧ users s' = users s ∧ documents s' = documents s
           ∧ files s' = files s)
  ∧ (∀ e r s,
       pool s = None ∨ db_reachable e = false →
       ∃ response s',
         serve e r s = (Responded response, s')
         ∧ degraded_response r response
         ∧ pool s' = pool s
         ∧ users s' = users s ∧ documents s' = documents s).
Proof.
  split.
  - intros created e s Hp Hd. rewrite startup_run by done.
    eexists. split; [done|]. by destruct created.
  - intros e r s Hdown. apply degraded_not_ready in Hdown as Hr.
    unfold serve.
    destruct r as [|name email password|email password
      |header part name type date|header|header id|q type date]; simpl.
    + rewrite health_run. eexists _, _. split; [done|]. split; [|done].
      simpl. destruct Hdown as [-> | ->]; [by eauto|].
      destruct (pool s); eauto.
    + rewrite signup_run, Hr. simpl.
      destruct (truthy email), (truthy password); simpl;
        eexists _, _; (split; [done|]); done.
    + rewrite login_not_ready by done. by eexists _, _.
    + unfold upload_route.
      destruct (authMiddleware_total e header s) as [[rejection|user] Hauth].
      * rewrite (authenticated_rejected _ _ _ _ _ Hauth).
        apply authMiddleware_rejection in Hauth as [message ->].
        eexists _, _. split; [done|]. split; [|done]. simpl. eauto 10.
      * rewrite (authenticated_accepted _ _ _ _ _ Hauth), upload_steps_run.
        rewrite Hr. cbv zeta. destruct part as [file|].
        -- destruct (disk_write_fails e); eexists _, _;
             (split; [done|]); (split; [|done]); simpl; eauto.
        -- eexists _, _. split; [done|]. split; [|done]. simpl. eauto 10.
    + destruct (authMiddleware_total e header s) as [[rejection|user] Hauth].
      * rewrite (authenticated_rejected _ _ _ _ _ Hauth).
        apply authMiddleware_rejection in Hauth as [message ->].
        eexists _, _. split; [done|]. split; [|done]. simpl. eauto.
      * rewrite (authenticated_accepted _ _ _ _ _ Hauth).
        rewrite mydocs_not_ready by done.
        eexists _, _. split; [done|]. split; [|done]. simpl. eauto.
    + destruct (authMiddleware_total e header s) as [[rejection|user] Hauth].
      * rewrite (authenticated_rejected _ _ _ _ _ Hauth).
        apply authMiddleware_rejection in Hauth as [message ->].
        eexists _, _. split; [done|]. split; [|done]. simpl. eauto.
      * rewrite (authenticated_accepted _ _ _ _ _ Hauth).
        rewrite delete_doc_not_ready by done.
        eexists _, _. split; [done|]. split; [|done]. simpl. eauto.
    + rewrite search_not_ready by done. by eexists _, _.
Qed.

(** C7, an instance: the process starts while the database is away, then is
    asked for its health and for a search. *)
Lemma degraded_not_crashed_witness :
  ∃ s, startup (inr Demo.the_pool) (Demo.offline 0) Demo.cold = (inr tt, s)
       ∧ (serve (P := Demo.platform) (Demo.offline 1000) GetHealth s).1
         = Responded
             (json 200 (JHealth true (Some false)
                          (Some "connect ECONNREFUSED 127.0.0.1:3306")))
       ∧ (serve (P := Demo.platform) (Demo.offline 2000)
            (GetSearch (Some "report") None None) s).1
         = Responded internal_error.
Proof.
  destruct (degraded_not_crashed (P := Demo.platform)) as [Hstart Hserve].
  destruct (Hstart (inr Demo.the_pool) (Demo.offline 0) Demo.cold)
    as (s & Hs & _); [vm_compute; reflexivity..|].
  exists s. split; [exact Hs|].
  assert (Hstate : s = (startup (inr Demo.the_pool) (Demo.offline 0)
                          Demo.cold).2) by (by rewrite Hs).
  split.
  - subst s. vm_compute. reflexivity.
  - destruct (Hserve (Demo.offline 2000) (GetSearch (Some "report") None None) s)
      as (response & s' & Hout & Hdegraded & _); [by right|].
    rewrite Hout. simpl in *. by rewrite Hdegraded.
Defined.

(** * Further properties of the handlers *)

(** ** The collation *)

Lemma ci_eqb_refl a : ci_eqb a a = true.
Proof. unfold ci_eqb. by apply bool_decide_eq_true. Qed.

Lemma ci_eqb_sym a b : ci_eqb a b = ci_eqb b a.
Proof. unfold ci_eqb. apply bool_decide_ext. naive_solver. Qed.

Lemma collate_eqb_refl a : collate_eqb a a = true.
Proof. induction a as [|c a IH]; [done|]. simpl. by rewrite ci_eqb_refl. Qed.

Lemma collate_eqb_sym a b : collate_eqb a b = collate_eqb b a.
Proof.
  revert b. induction a as [|x a IH]; intros [|y b]; try done.
  simpl. by rewrite ci_eqb_sym, IH.
Qed.

Lemma email_registered_spec s email :
  email_registered s email = false ↔
  ∀ i u, users s !! i = Some u → collate_eqb (user_email u) email = false.
Proof.
  unfold email_registered. split.
  - intros Hno i u Hu. apply not_true_is_false. intros Heq.
    assert (existsb (λ r : Z * user, collate_eqb (user_email r.2) email)
              (map_to_list (users s)) = true); [|congruence].
    apply existsb_exists. exists (i, u). split; [|done].
    by apply list_elem_of_In, elem_of_map_to_list.
  - intros Hno. apply not_true_is_false.
    intros ([i u] & Hin & Heq)%existsb_exists.
    apply list_elem_of_In, elem_of_map_to_list in Hin.
    apply Hno in Hin. simpl in Heq. congruence.
Qed.

Lemma unique_emails_spec s :
  unique_emails s = true ↔
  ∀ i j u v, users s !! i = Some u → users s !! j = Some v →
             collate_eqb (user_email u) (user_email v) = true → i = j.
Proof.
  unfold unique_emails. rewrite forallb_forall. split.
  - intros Hall i j u v Hu Hv Heq.
    apply elem_of_map_to_list, list_elem_of_In in Hu, Hv.
    specialize (Hall _ Hu). rewrite forallb_forall in Hall.
    specialize (Hall _ Hv). simpl in Hall. rewrite Heq in Hall.
    by apply bool_decide_eq_true in Hall.
  - intros Hall [i u] Hu. apply forallb_forall. intros [j v] Hv.
    apply list_elem_of_In, elem_of_map_to_list in Hu, Hv. simpl.
    destruct (collate_eqb _ _) eqn:Heq; [|done]. simpl.
    apply bool_decide_eq_true. eauto.
Qed.

Lemma owners_exist_spec s :
  owners_exist s = true ↔
  ∀ id d owner, documents s !! id = Some d → user_id d = Some owner →
                is_Some (users s !! owner).
Proof.
  unfold owners_exist. rewrite forallb_forall. split.
  - intros Hall id d owner Hd Ho.
    apply elem_of_map_to_list, list_elem_of_In, Hall in Hd.
    simpl in Hd. rewrite Ho in Hd. by apply bool_decide_eq_true in Hd.
  - intros Hall [id d] Hd%list_elem_of_In%elem_of_map_to_list. simpl.
    destruct (user_id d) as [owner|] eqn:Ho; [|done].
    apply bool_decide_eq_true. eauto.
Qed.

(** ** What one request does to the state *)

Section effect.
Context {P : Platform}.

(** A request leaves the state alone, or it is a signup that adds a user
    with a new email, or an upload behind the gate that stores a blob and
    possibly adds a row for it, or a delete by the owner of the row. *)
Lemma serve_effect e r s :
  (serve e r s).2 = s
  ∨ (∃ name email password row,
       r = PostSignup name email password
       ∧ db_ready e s = true
       ∧ email_registered s (user_email row) = false
       ∧ (serve e r s).2
         = set_users (<[next_user_id s := row]> (users s))
             (next_user_id s + 1) s)
  ∨ (∃ header file name type date user,
       r = PostUpload header (Some file) name type date
       ∧ authMiddleware e header s = (inr (inr user), s)
       ∧ disk_write_fails e = false
       ∧ let stored :=
           set_files (<[path_join UPLOAD_DIR (filename e file) := content file]>
                        (files s)) s in
         ((serve e r s).2 = stored
          ∧ (db_ready e s = false ∨ users s !! jwt_id user = None))
         ∨ (db_ready e s = true
            ∧ is_Some (users s !! jwt_id user)
            ∧ (serve e r s).2
              = set_documents
                  (<[next_document_id s :=
                       uploaded_row e user file name type date]> (documents s))
                  (next_document_id s + 1) stored))
  ∨ (∃ header id user doc,
       r = DeleteDocument header id
       ∧ authMiddleware e header s = (inr (inr user), s)
       ∧ db_ready e s = true
       ∧ documents s !! id = Some doc
       ∧ user_id doc = Some (jwt_id user)
       ∧ (serve e r s).2
         = set_documents (delete id (documents s)) (next_document_id s)
             (after_cleanup e doc s)).
Proof.
  unfold serve. destruct r as [|name email password|email password
    |header part name type date|header|header id|q type date]; simpl.
  - rewrite health_run. auto.
  - rewrite signup_run. cbv zeta.
    destruct (_ || _); [by auto|].
    destruct (db_ready e s) eqn:Hr; [|by auto]. simpl.
    destruct (email_registered _ _) eqn:Hreg; [by auto|].
    right. left. eexists name, email, password, _.
    split; [done|]. split; [done|]. split; last reflexivity. exact Hreg.
  - destruct (login_total e email password s) as [response ->]. auto.
  - unfold upload_route.
    destruct (authMiddleware_total e header s) as [[rejection|user] Hauth].
    + rewrite (authenticated_rejected _ _ _ _ _ Hauth). auto.
    + rewrite (authenticated_accepted _ _ _ _ _ Hauth), upload_steps_run.
      cbv zeta. destruct part as [file|]; [|by auto].
      destruct (disk_write_fails e) eqn:Hdisk; [by auto|].
      right. right. left. exists header, file, name, type, date, user.
      split_and!; [done..|].
      destruct (db_ready e s); [|by left; auto].
      destruct (users s !! jwt_id user) eqn:Hu; [|by left; auto].
      right. eauto.
  - destruct (authMiddleware_total e header s) as [[rejection|user] Hauth].
    + rewrite (authenticated_rejected _ _ _ _ _ Hauth). auto.
    + rewrite (authenticated_accepted _ _ _ _ _ Hauth).
      destruct (mydocs_total e user s) as [response ->]. auto.
  - destruct (authMiddleware_total e header s) as [[rejection|user] Hauth].
    + rewrite (authenticated_rejected _ _ _ _ _ Hauth). auto.
    + rewrite (authenticated_accepted _ _ _ _ _ Hauth).
      destruct (db_ready e s) eqn:Hr.
      * rewrite delete_doc_run by done.
        destruct (documents s !! id) as [doc|] eqn:Hdoc; [|auto].
        case_bool_decide as Hown; [auto|]. simpl.
        right. right. right. exists header, id, user, doc. split_and!; done.
      * rewrite delete_doc_not_ready by done. auto.
  - destruct (search_total e q type date s) as [response ->]. auto.
Qed.

End effect.

Section invariants.
Context {P : Platform}.

Lemma serve_unique_emails e r s :
  unique_emails s = true → unique_emails (serve e r s).2 = true.
Proof.
  rewrite !unique_emails_spec. intros Huniq.
  destruct (serve_effect e r s)
    as [->|[(name & email & password & row & _ & _ & Hnew & ->)
       |[(header & file & name & type & date & user & _ & _ & _ & Hup)
        |(header & id & user & doc & _ & _ & _ & _ & _ & ->)]]]; [done| | |].
  - rewrite email_registered_spec in Hnew. simpl.
    intros i j u v Hu Hv Heq.
    apply lookup_insert_Some in Hu as [[<- <-]|[Hi Hu]];
      apply lookup_insert_Some in Hv as [[<- <-]|[Hj Hv]]; [done| | |by eauto].
    + rewrite collate_eqb_sym in Heq. apply Hnew in Hv. congruence.
    + apply Hnew in Hu. congruence.
  - simpl in Hup. by destruct Hup as [[-> _]|(_ & _ & ->)].
  - simpl. by destruct (after_cleanup_frame e doc s) as (_ & _ & -> & _).
Qed.

Lemma serve_owners_exist e r s :
  owners_exist s = true → owners_exist (serve e r s).2 = true.
Proof.
  rewrite !owners_exist_spec. intros Hfk.
  destruct (serve_effect e r s)
    as [->|[(name & email & password & row & _ & _ & _ & ->)
       |[(header & file & name & type & date & user & _ & _ & _ & Hup)
        |(header & id & user & doc & _ & _ & _ & _ & _ & ->)]]]; [done| | |].
  - simpl. intros id d owner Hd Ho.
    destruct (decide (next_user_id s = owner)) as [->|Hne].
    + rewrite lookup_insert_eq. eauto.
    + rewrite lookup_insert_ne by done. eauto.
  - simpl in Hup. destruct Hup as [[-> _]|(_ & Howner & ->)]; [done|]. simpl.
    intros id d owner [[<- <-]|[_ Hd]]%lookup_insert_Some Ho; [|by eauto].
    simpl in Ho. by simplify_eq.
  - simpl. destruct (after_cleanup_frame e doc s) as (_ & _ & -> & _).
    intros id' d owner [_ Hd]%lookup_delete_Some Ho. eauto.
Qed.

Lemma admin_delete_user_owners_exist uid s :
  owners_exist s = true → owners_exist (admin_delete_user uid s) = true.
Proof.
  rewrite !owners_exist_spec. intros Hfk id d owner. simpl.
  rewrite lookup_fmap. destruct (documents s !! id) as [d0|] eqn:Hd0; [|done].
  simpl. intros [= <-]. case_bool_decide as Hown; simpl; [done|].
  intros Ho. rewrite lookup_delete_ne by congruence. eauto.
Qed.

Lemma serve_keeps_users e r s id u :
  well_formed s = true →
  users s !! id = Some u →
  users (serve e r s).2 !! id = Some u.
Proof.
  intros [Hwf _]%well_formed_spec Hu.
  destruct (serve_effect e r s)
    as [->|[(name & email & password & row & _ & _ & _ & ->)
       |[(header & file & name & type & date & user & _ & _ & _ & Hup)
        |(header & id' & user & doc & _ & _ & _ & _ & _ & ->)]]]; [done| | |].
  - simpl. rewrite lookup_insert_ne; [done|]. apply Hwf in Hu. lia.
  - simpl in Hup. by destruct Hup as [[-> _]|(_ & _ & ->)].
  - simpl. by destruct (after_cleanup_frame e doc s) as (_ & _ & -> & _).
Qed.

Lemma serve_documents_below e r s id :
  id < next_document_id s →
  id < next_document_id (serve e r s).2
  ∧ (documents (serve e r s).2 !! id = documents s !! id
     ∨ documents (serve e r s).2 !! id = None).
Proof.
  intros Hid.
  destruct (serve_effect e r s)
    as [->|[(name & email & password & row & _ & _ & _ & ->)
       |[(header & file & name & type & date & user & _ & _ & _ & Hup)
        |(header & id' & user & doc & _ & _ & _ & _ & _ & ->)]]];
    [by auto|by auto| |].
  - simpl in Hup. destruct Hup as [[-> _]|(_ & _ & ->)]; [by auto|]. simpl.
    split; [lia|]. left. apply lookup_insert_ne. lia.
  - simpl. split; [done|].
    destruct (decide (id' = id)) as [->|Hne].
    + right. apply lookup_delete_eq.
    + left. by apply lookup_delete_ne.
Qed.

End invariants.

(** X1.  The routes that run no [INSERT] and no [DELETE] (health, login,
    the listing of one's documents, search) return the state they were
    given, whatever they answer. *)
Theorem reading_changes_nothing {P : Platform} e r s :
  reads_only r = true → (serve e r s).2 = s.
Proof.
  intros Hread.
  destruct (serve_effect e r s)
    as [Hsame|[(name & email & password & row & -> & _)
       |[(header & file & name & type & date & user & -> & _)
        |(header & id & user & doc & -> & _)]]]; done.
Qed.

Lemma reading_changes_nothing_witness :
  (serve (P := Demo.platform) (Demo.at_time 50000)
     (PostLogin (Some "ann@x.com") (Some "pw1")) Demo.library).2
  = Demo.library.
Proof.
  apply (reading_changes_nothing (P := Demo.platform)). reflexivity.
Defined.

(** X2.  The emails of the users stay pairwise different, up to case,
    through every sequence of requests. *)
Theorem emails_stay_unique {P : Platform} session s :
  unique_emails s = true → unique_emails (serve_all session s) = true.
Proof.
  revert s. induction session as [|[e r] session IH]; intros s Huniq; [done|].
  simpl. by apply IH, serve_unique_emails.
Qed.

Lemma emails_stay_unique_witness :
  unique_emails
    (serve_all (P := Demo.platform)
       [(Demo.at_time 70000,
         PostSignup None (Some "carol@x.com") (Some "pw3"));
        (Demo.at_time 80000,
         PostSignup None (Some "CAROL@x.com") (Some "pw4"))]
       Demo.library) = true.
Proof.
  apply (emails_stay_unique (P := Demo.platform)). vm_compute. reflexivity.
Defined.

(** X3.  The foreign key holds through every sequence of requests, and
    through the removal of a user by hand after it: the owner of a document,
    where there is one, is a user row. *)
Theorem owners_stay_valid {P : Platform} session s :
  owners_exist s = true →
  owners_exist (serve_all session s) = true
  ∧ ∀ uid, owners_exist (admin_delete_user uid (serve_all session s)) = true.
Proof.
  intros Hfk.
  assert (Hall : owners_exist (serve_all session s) = true).
  { revert s Hfk.
    induction session as [|[e r] session IH]; intros s Hfk; [done|].
    simpl. by apply IH, serve_owners_exist. }
  split; [done|]. intros uid. by apply admin_delete_user_owners_exist.
Qed.

Lemma owners_stay_valid_witness :
  owners_exist
    (admin_delete_user 1
       (serve_all (P := Demo.platform)
          [(Demo.at_time 90000,
            PostUpload (Some ("Bearer " +:+ Demo.ann_token))
              (Some {| originalname := "Minutes.DOCX"; content := "PK" |})
              None None None)]
          Demo.library)) = true.
Proof.
  apply (owners_stay_valid (P := Demo.platform)). vm_compute. reflexivity.
Defined.

(** X4.  No sequence of requests removes or alters a user row. *)
Theorem users_are_kept {P : Platform} session s id u :
  well_formed s = true →
  users s !! id = Some u →
  users (serve_all session s) !! id = Some u.
Proof.
  revert s. induction session as [|[e r] session IH]; intros s Hwf Hu; [done|].
  simpl. apply IH.
  - by apply serve_well_formed.
  - by apply serve_keeps_users.
Qed.

Lemma users_are_kept_witness :
  users
    (serve_all (P := Demo.platform)
       [(Demo.at_time 70000,
         PostSignup (Some "Ann") (Some "ann2@x.com") (Some "pw9"));
        (Demo.at_time 80000,
         DeleteDocument (Some ("Bearer " +:+ Demo.ann_token)) 1)]
       Demo.library) !! 1 = Some Demo.ann.
Proof.
  apply (users_are_kept (P := Demo.platform)); vm_compute; reflexivity.
Defined.

(** X5.  Through every sequence of requests, the row under an id below the
    counter of the documents is either the row that was there or gone: no
    request rewrites a document, and an id that is free below the counter,
    such as the id of a deleted document, is not given out again. *)
Theorem documents_are_not_rewritten {P : Platform} session s id :
  id < next_document_id s →
  documents (serve_all session s) !! id = documents s !! id
  ∨ documents (serve_all session s) !! id = None.
Proof.
  revert s. induction session as [|[e r] session IH]; intros s Hid;
    [by left|].
  simpl.
  destruct (serve_documents_below e r s id Hid) as [Hid' Hstep].
  destruct (IH (serve e r s).2 Hid') as [Hrest|Hrest]; [|by right].
  rewrite Hrest. destruct Hstep; auto.
Qed.

Lemma documents_are_not_rewritten_witness :
  let s' :=
    serve_all (P := Demo.platform)
      [(Demo.at_time 80000,
        DeleteDocument (Some ("Bearer " +:+ Demo.ann_token)) 2);
       (Demo.at_time 90000,
        PostUpload (Some ("Bearer " +:+ Demo.ann_token))
          (Some {| originalname := "Minutes.DOCX"; content := "PK" |})
          None None None)]
      Demo.library in
  documents s' !! 2 = None ∧ documents s' !! 1 = Some Demo.report.
Proof.
  intros s'. split.
  - destruct (documents_are_not_rewritten (P := Demo.platform)
                [(Demo.at_time 80000,
                  DeleteDocument (Some ("Bearer " +:+ Demo.ann_token)) 2);
                 (Demo.at_time 90000,
                  PostUpload (Some ("Bearer " +:+ Demo.ann_token))
                    (Some {| originalname := "Minutes.DOCX"; content := "PK" |})
                    None None None)]
                Demo.library 2) as [Hsame|Hgone];
      [vm_compute; reflexivity..| |exact Hgone].
    vm_compute in Hsame. discriminate.
  - destruct (documents_are_not_rewritten (P := Demo.platform)
                [(Demo.at_time 80000,
                  DeleteDocument (Some ("Bearer " +:+ Demo.ann_token)) 2);
                 (Demo.at_time 90000,
                  PostUpload (Some ("Bearer " +:+ Demo.ann_token))
                    (Some {| originalname := "Minutes.DOCX"; content := "PK" |})
                    None None None)]
                Demo.library 1) as [Hsame|Hgone];
      [vm_compute; reflexivity..|exact Hsame|].
    vm_compute in Hgone. discriminate.
Defined.

(** X6.  A document disappears only through a delete request for its id
    that passed the gate with a token of its owner, while the database was
    available. *)
Theorem only_the_owner_deletes {P : Platform} e r s id doc :
  documents s !! id = Some doc →
  documents (serve e r s).2 !! id = None →
  ∃ header user,
    r = DeleteDocument header id
    ∧ authMiddleware e header s = (inr (inr user), s)
    ∧ user_id doc = Some (jwt_id user)
    ∧ db_ready e s = true.
Proof.
  intros Hdoc.
  destruct (serve_effect e r s)
    as [->|[(name & email & password & row & _ & _ & _ & ->)
       |[(header & file & name & type & date & user & _ & _ & _ & Hup)
        |(header & id' & user & doc' & -> & Hauth & Hr & Hdoc' & Hown & ->)]]].
  - congruence.
  - simpl. congruence.
  - simpl in Hup. destruct Hup as [[-> _]|(_ & _ & ->)]; simpl; [congruence|].
    intros Hgone. apply lookup_insert_None in Hgone as [Hgone _]. congruence.
  - simpl. intros Hgone.
    destruct (decide (id' = id)) as [->|Hne].
    + exists header, user. split_and!; [done..| |done]. congruence.
    + rewrite lookup_delete_ne in Hgone by done. congruence.
Qed.

Lemma only_the_owner_deletes_witness :
  ∃ header user,
    DeleteDocument (Some ("Bearer " +:+ Demo.ann_token)) 1
    = DeleteDocument header 1
    ∧ authMiddleware (P := Demo.platform) (Demo.at_time 80000) header
        Demo.library = (inr (inr user), Demo.library)
    ∧ user_id Demo.report = Some (jwt_id user)
    ∧ db_ready (Demo.at_time 80000) Demo.library = true.
Proof.
  apply (only_the_owner_deletes (P := Demo.platform)); vm_compute; reflexivity.
Defined.

(** ** Signing up, then logging in *)

Section sessions.
Context {P : Platform}.

Lemma login_run e email password s :
  db_ready e s = true →
  login e email password s =
  match select_user_by_email email s with
  | (inr [], _) => (inr (json 400 (JError "invalid")), s)
  | (inr ((id, user) :: _), _) =>
      match password with
      | None => (inr internal_error, s)
      | Some p =>
          if bcrypt_compare p (user_password_hash user)
          then (inr (json 200 (JLogin (jwt_sign e id (user_email user)) id
                                 (user_email user) (user_name user))), s)
          else (inr (json 400 (JError "invalid")), s)
      end
  | (inl _, _) => (inr internal_error, s)
  end.
Proof.
  intros Hr. unfold login, try_catch, bind. rewrite pool_query_ready by done.
  unfold select_user_by_email. simpl.
  destruct (match email with Some _ => _ | None => _ end) as [|[id user] rows];
    [done|].
  destruct password as [p|]; [|done]. simpl.
  unfold ret at 1. by destruct (bcrypt_compare p _).
Qed.

Lemma ci_eqb_trans a b c : ci_eqb a b = true → ci_eqb a c = ci_eqb b c.
Proof.
  unfold ci_eqb. intros Hab%bool_decide_eq_true. by rewrite Hab.
Qed.

(** Two texts that the collation identifies compare alike with any
    third. *)
Lemma collate_eqb_trans a b c :
  collate_eqb a b = true → collate_eqb a c = collate_eqb b c.
Proof.
  revert b c. induction a as [|x a IH]; intros [|y b] [|z c]; try done.
  simpl. intros [Hxy Hab]%andb_true_iff.
  by rewrite (ci_eqb_trans _ _ _ Hxy), (IH _ _ Hab).
Qed.

(** The rows that hold, up to case, the email of a user who has just been
    added. *)
Lemma select_new_user s id row email :
  users s !! id = None →
  email_registered s (user_email row) = false →
  collate_eqb (user_email row) email = true →
  filter (λ r : Z * user, collate_eqb (user_email r.2) email = true)
         (map_to_list (<[id := row]> (users s))) = [(id, row)].
Proof.
  intros Hfree Hnew Hsame. apply Permutation_singleton_r.
  rewrite map_to_list_insert by done.
  rewrite filter_cons, decide_True by done.
  rewrite (list_filter_iff _
             (λ r : Z * user,
                collate_eqb (user_email r.2) (user_email row) = true)).
  - by rewrite email_registered_rows.
  - intros [i u]. simpl.
    rewrite (collate_eqb_sym _ email), (collate_eqb_sym _ (user_email row)).
    rewrite <-(collate_eqb_trans _ _ _ Hsame). done.
Qed.

Lemma mydocs_run e user s :
  db_ready e s = true →
  mydocs e user s =
  (inr (json 200
          (JDocuments
             (merge_sort newer_first
                (filter (λ r : Z * document, user_id r.2 = Some (jwt_id user))
                        (map_to_list (documents s)))))), s).
Proof.
  intros Hr. unfold mydocs, try_catch, bind.
  by rewrite pool_query_ready by done.
Qed.

End sessions.

(** X7.  After a signup that the database accepted, a login with the same
    password and with the email in any mix of upper and lower case, at any
    later time the database is available, is answered 200 with the id that
    the signup returned, the email as it was signed up, the name given at
    signup and a token for that id and email; it changes nothing.  The
    library is assumed to accept a password against the hash it made of
    it. *)
Theorem signup_then_login {P : Platform} e name email password s e' email' :
  truthy (Some email) = true →
  truthy (Some password) = true →
  db_ready e s = true →
  db_ready e' s = true →
  well_formed s = true →
  email_registered s email = false →
  collate_eqb email email' = true →
  bcrypt_compare password (bcrypt_hash password 10 (salt e)) = true →
  ∃ id s1,
    serve e (PostSignup name (Some email) (Some password)) s
    = (Responded (json 200 (JSignup (jwt_sign e id email) id email)), s1)
    ∧ serve e' (PostLogin (Some email') (Some password)) s1
      = (Responded (json 200 (JLogin (jwt_sign e' id email) id email
                                (or_null name))), s1).
Proof.
  intros He Hp Hr Hr' Hwf Hnew Hsame Hhash.
  destruct (well_formed_fresh s Hwf) as [Hfree _].
  unfold serve at 1. unfold route. rewrite signup_run, He, Hp, Hr. simpl.
  rewrite Hnew. eexists _, _. split; [done|].
  unfold serve, route. rewrite login_run by done.
  unfold select_user_by_email. cbn [users set_users].
  rewrite (select_new_user s (next_user_id s)
             {| user_name := or_null name; user_email := email;
                user_password_hash := bcrypt_hash password 10 (salt e);
                user_created_at := now_s e |}) by done.
  simpl. by rewrite Hhash.
Qed.

Lemma signup_then_login_witness :
  ∃ id s1,
    serve (P := Demo.platform) (Demo.at_time 70000)
      (PostSignup (Some "Carol") (Some "carol@x.com") (Some "pw3")) Demo.library
    = (Responded
         (json 200 (JSignup (jwt_sign (P := Demo.platform)
                               (Demo.at_time 70000) id "carol@x.com")
                      id "carol@x.com")), s1)
    ∧ serve (P := Demo.platform) (Demo.at_time 99000)
        (PostLogin (Some "Carol@X.com") (Some "pw3")) s1
      = (Responded
           (json 200 (JLogin (jwt_sign (P := Demo.platform)
                                (Demo.at_time 99000) id "carol@x.com")
                        id "carol@x.com" (or_null (Some "Carol")))), s1).
Proof.
  apply (signup_then_login (P := Demo.platform)); vm_compute; reflexivity.
Defined.

(** X8.  While the database is available, the listing behind the gate
    answers 200 with exactly the documents whose owner is the id in the
    token, each once, newest first, all of them; it changes nothing. *)
Theorem mydocs_lists_own {P : Platform} e header user s :
  db_ready e s = true →
  authMiddleware e header s = (inr (inr user), s) →
  ∃ rows,
    serve e (GetMydocs header) s = (Responded (json 200 (JDocuments rows)), s)
    ∧ (∀ id d, (id, d) ∈ rows ↔
         documents s !! id = Some d ∧ user_id d = Some (jwt_id user))
    ∧ NoDup rows
    ∧ StronglySorted newer_first rows.
Proof.
  intros Hr Hauth. eexists. split_and!.
  - unfold serve, route.
    by rewrite (authenticated_accepted _ _ _ _ _ Hauth), mydocs_run by done.
  - intros id d. rewrite merge_sort_Permutation.
    by rewrite list_elem_of_filter, elem_of_map_to_list, (comm and).
  - rewrite merge_sort_Permutation. apply NoDup_filter, NoDup_map_to_list.
  - apply StronglySorted_merge_sort; apply _.
Qed.

Lemma mydocs_lists_own_witness :
  ∃ rows,
    serve (P := Demo.platform) (Demo.at_time 80000)
      (GetMydocs (Some ("Bearer " +:+ Demo.ann_token))) Demo.library
    = (Responded (json 200 (JDocuments rows)), Demo.library)
    ∧ (2, Demo.memo) ∈ rows ∧ (3, Demo.orphan) ∉ rows.
Proof.
  destruct (mydocs_lists_own (P := Demo.platform) (Demo.at_time 80000)
              (Some ("Bearer " +:+ Demo.ann_token))
              (jwt_claims (Demo.at_time 100000) 1 "ann@x.com") Demo.library)
    as (rows & Hserve & Hin & _); [vm_compute; reflexivity..|].
  exists rows. split; [exact Hserve|]. split.
  - apply Hin. split; vm_compute; reflexivity.
  - intros [_ Hown]%Hin. vm_compute in Hown. discriminate.
Defined.

(** ** Uploading, listing, deleting *)

Section uploads.
Context {P : Platform}.

(** The gate does not look at the state. *)
Lemma authMiddleware_any_state e header s s' checked :
  authMiddleware e header s = (inr checked, s) →
  authMiddleware e header s' = (inr checked, s').
Proof.
  destruct (truthy header) eqn:Hh.
  - destruct (decide (length (split " "%char (default EmptyString header))
                      = 2%nat)) as [Hl|Hl].
    + rewrite !authMiddleware_verify by done.
      repeat case_match; intros; simplify_eq; done.
    + rewrite !authMiddleware_bad by done. intros; simplify_eq; done.
  - rewrite !authMiddleware_missing by done. intros; simplify_eq; done.
Qed.

Lemma upload_route_run e header user part name type date s :
  authMiddleware e header s = (inr (inr user), s) →
  serve e (PostUpload header part name type date) s =
  match upload_steps e user part name type date s with
  | (inr response, s') => (Responded response, s')
  | (inl err, s') => (Unhandled err, s')
  end.
Proof.
  intros Hauth. unfold serve, route, upload_route.
  by rewrite (authenticated_accepted _ _ _ _ _ Hauth).
Qed.

End uploads.

(** X9.  An upload behind the gate, with a file, a working disk, an
    available database and an owner who is a user, is answered 200.  It adds
    exactly one row, under an id that was free; the row belongs to the id in
    the token, takes the name given or else the name of the uploaded file,
    takes the type and the date given or else null, and keeps the name of
    the uploaded file.  It writes the content under the generated name
    below the upload directory and touches nothing else. *)
Theorem upload_adds_row {P : Platform} e header user file name type date s :
  authMiddleware e header s = (inr (inr user), s) →
  disk_write_fails e = false →
  db_ready e s = true →
  is_Some (users s !! jwt_id user) →
  well_formed s = true →
  ∃ row s',
    serve e (PostUpload header (Some file) name type date) s
    = (Responded (json 200 JOk), s')
    ∧ documents s !! next_document_id s = None
    ∧ documents s' = <[next_document_id s := row]> (documents s)
    ∧ user_id row = Some (jwt_id user)
    ∧ (if truthy name then Some (document_name row) = name
       else document_name row = originalname file)
    ∧ (if truthy type then document_type row = type
       else document_type row = None)
    ∧ (if truthy date then document_date row = date
       else document_date row = None)
    ∧ original_filename row = originalname file
    ∧ users s' = users s
    ∧ files s'
      = <[path_join UPLOAD_DIR (filename e file) := content file]> (files s).
Proof.
  intros Hauth Hdisk Hr [owner Howner] Hwf.
  destruct (well_formed_fresh s Hwf) as [_ Hfree].
  rewrite (upload_route_run e header user) by done.
  rewrite upload_steps_run, Hdisk, Hr, Howner. cbv zeta.
  eexists _, _. split; [done|]. simpl. split_and!; try done.
  - unfold or_else. destruct name as [[|c n]|]; done.
  - by destruct type as [[|c t]|].
  - by destruct date as [[|c t]|].
Qed.

Lemma upload_adds_row_witness :
  ∃ row s',
    serve (P := Demo.platform) (Demo.at_time 90000)
      (PostUpload (Some ("Bearer " +:+ Demo.ann_token))
         (Some {| originalname := "Minutes.DOCX"; content := "PK" |})
         (Some "") (Some "minutes") None) Demo.library
    = (Responded (json 200 JOk), s')
    ∧ documents s' = <[4 := row]> (documents Demo.library)
    ∧ document_name row = "Minutes.DOCX"
    ∧ document_type row = Some "minutes"
    ∧ document_date row = None.
Proof.
  destruct (upload_adds_row (P := Demo.platform) (Demo.at_time 90000)
              (Some ("Bearer " +:+ Demo.ann_token))
              (jwt_claims (Demo.at_time 100000) 1 "ann@x.com")
              {| originalname := "Minutes.DOCX"; content := "PK" |}
              (Some "") (Some "minutes") None Demo.library)
    as (row & s' & Hserve & _ & Hdocs & _ & Hname & Htype & Hdate & _);
    [vm_compute; reflexivity|vm_compute; reflexivity|vm_compute; reflexivity
    |eexists; vm_compute; reflexivity|vm_compute; reflexivity|].
  exists row, s'. auto.
Defined.

(** X10.  An upload behind the gate without a file part is answered 400
    with [file required] and changes nothing, whether the database is
    available or not. *)
Theorem upload_without_file {P : Platform} e header user name type date s :
  authMiddleware e header s = (inr (inr user), s) →
  serve e (PostUpload header None name type date) s
  = (Responded (json 400 (JError "file required")), s).
Proof.
  intros Hauth. rewrite (upload_route_run e header user) by done.
  by rewrite upload_steps_run.
Qed.

Lemma upload_without_file_witness :
  serve (P := Demo.platform) (Demo.offline 90000)
    (PostUpload (Some ("Bearer " +:+ Demo.ann_token)) None
       (Some "title") None None) Demo.library
  = (Responded (json 400 (JError "file required")), Demo.library).
Proof.
  apply (upload_without_file (P := Demo.platform) _ _
           (jwt_claims (Demo.at_time 100000) 1 "ann@x.com")).
  vm_compute. reflexivity.
Defined.

(** X11.  The upload is not atomic: when the file has been stored and the
    insert then fails, because the database is away or because the user of
    the token is no longer a user row, the answer is 500 with
    [upload failed], no row is added, and the blob stays on the disk. *)
Theorem failed_insert_leaves_blob {P : Platform}
    e header user file name type date s :
  authMiddleware e header s = (inr (inr user), s) →
  disk_write_fails e = false →
  db_ready e s = false ∨ users s !! jwt_id user = None →
  ∃ s',
    serve e (PostUpload header (Some file) name type date) s
    = (Responded (json 500 (JError "upload failed")), s')
    ∧ documents s' = documents s
    ∧ users s' = users s
    ∧ files s' !! path_join UPLOAD_DIR (filename e file) = Some (content file).
Proof.
  intros Hauth Hdisk Hfail. rewrite (upload_route_run e header user) by done.
  rewrite upload_steps_run, Hdisk. cbv zeta.
  destruct (db_ready e s) eqn:Hr.
  - destruct Hfail as [?| ->]; [done|].
    eexists. split; [done|]. simpl. split_and!; [done..|].
    apply lookup_insert_eq.
  - eexists. split; [done|]. simpl. split_and!; [done..|].
    apply lookup_insert_eq.
Qed.

Lemma failed_insert_leaves_blob_witness :
  ∃ s',
    serve (P := Demo.platform) (Demo.offline 90000)
      (PostUpload (Some ("Bearer " +:+ Demo.ann_token))
         (Some {| originalname := "Minutes.DOCX"; content := "PK" |})
         None None None) Demo.library
    = (Responded (json 500 (JError "upload failed")), s')
    ∧ documents s' = documents Demo.library
    ∧ files s' !! "/srv/app/uploads/90000-123456789.DOCX" = Some "PK".
Proof.
  destruct (failed_insert_leaves_blob (P := Demo.platform) (Demo.offline 90000)
              (Some ("Bearer " +:+ Demo.ann_token))
              (jwt_claims (Demo.at_time 100000) 1 "ann@x.com")
              {| originalname := "Minutes.DOCX"; content := "PK" |}
              None None None Demo.library)
    as (s' & Hserve & Hdocs & _ & Hblob);
    [vm_compute; reflexivity..|left; vm_compute; reflexivity|].
  exists s'. split_and!; [exact Hserve|exact Hdocs|exact Hblob].
Defined.

(** X12.  An upload followed by the delete of the new document by the same
    user undoes it: when the generated name was free on the disk and the
    disk lets the blob go, the documents, the users and the disk are as
    before the upload; only the counter of the documents has moved on. *)
Theorem upload_then_delete {P : Platform}
    e header user file name type date s e' header' user' :
  authMiddleware e header s = (inr (inr user), s) →
  authMiddleware e' header' s = (inr (inr user'), s) →
  jwt_id user' = jwt_id user →
  disk_write_fails e = false →
  unlink_fails e' = false →
  db_ready e s = true →
  db_ready e' s = true →
  is_Some (users s !! jwt_id user) →
  well_formed s = true →
  contains_char "\" (originalname file) = false →
  files s !! path_join UPLOAD_DIR (filename e file) = None →
  ∃ s1 s2,
    serve e (PostUpload header (Some file) name type date) s
    = (Responded (json 200 JOk), s1)
    ∧ serve e' (DeleteDocument header' (next_document_id s)) s1
      = (Responded (json 200 JOk), s2)
    ∧ documents s2 = documents s
    ∧ users s2 = users s
    ∧ files s2 = files s
    ∧ next_document_id s2 = next_document_id s + 1.
Proof.
  intros Hauth Hauth' Hsame Hdisk Hunlink Hr Hr' [owner Howner] Hwf Hname Hfree.
  destruct (well_formed_fresh s Hwf) as [_ Hnew].
  rewrite (upload_route_run e header user) by done.
  rewrite upload_steps_run, Hdisk, Hr, Howner. cbv zeta.
  eexists _, _. split; [done|].
  set (s1 := set_documents _ _ _).
  apply (authMiddleware_any_state _ _ _ s1) in Hauth'.
  rewrite (delete_route_run e' header' user') by done.
  unfold s1 at 1. cbn [documents set_documents]. rewrite lookup_insert_eq.
  rewrite bool_decide_eq_false_2
    by (intros Hne; apply Hne; simpl; by rewrite Hsame).
  split; [done|].
  unfold after_cleanup, uploaded_row. cbn [file_path].
  rewrite stored_path, stored_path_resolves by done.
  rewrite bool_decide_eq_true_2 by done.
  unfold s1. cbn [files set_files set_documents].
  rewrite lookup_insert_eq, Hunlink. simpl.
  split_and!; [|done| |done].
  - by apply delete_insert_id.
  - by apply delete_insert_id.
Qed.

Lemma upload_then_delete_witness :
  ∃ s1 s2,
    serve (P := Demo.platform) (Demo.at_time 90000)
      (PostUpload (Some ("Bearer " +:+ Demo.ann_token))
         (Some {| originalname := "Minutes.DOCX"; content := "PK" |})
         None None None) Demo.library
    = (Responded (json 200 JOk), s1)
    ∧ serve (P := Demo.platform) (Demo.at_time 95000)
        (DeleteDocument (Some ("Bearer " +:+ Demo.ann_token)) 4) s1
      = (Responded (json 200 JOk), s2)
    ∧ documents s2 = documents Demo.library
    ∧ files s2 = files Demo.library.
Proof.
  destruct (upload_then_delete (P := Demo.platform) (Demo.at_time 90000)
              (Some ("Bearer " +:+ Demo.ann_token))
              (jwt_claims (Demo.at_time 100000) 1 "ann@x.com")
              {| originalname := "Minutes.DOCX"; content := "PK" |}
              None None None Demo.library (Demo.at_time 95000)
              (Some ("Bearer " +:+ Demo.ann_token))
              (jwt_claims (Demo.at_time 100000) 1 "ann@x.com"))
    as (s1 & s2 & Hup & Hdel & Hdocs & _ & Hfiles & _);
    [vm_compute; reflexivity|vm_compute; reflexivity|reflexivity
    |reflexivity|reflexivity|vm_compute; reflexivity|vm_compute; reflexivity
    |eexists; vm_compute; reflexivity|vm_compute; reflexivity
    |vm_compute; reflexivity|vm_compute; reflexivity|].
  exists s1, s2. auto.
Defined.

(** X13.  After the owner's delete the document is gone for everybody: the
    blob is off the disk when the row named a file and the disk let it go,
    every other file is untouched, and a further delete request for the id,
    by any requester behind the gate, is answered 404 and changes
    nothing. *)
Theorem deleted_is_gone {P : Platform} e header user id doc s :
  db_ready e s = true →
  authMiddleware e header s = (inr (inr user), s) →
  documents s !! id = Some doc →
  user_id doc = Some (jwt_id user) →
  ∃ s',
    serve e (DeleteDocument header id) s = (Responded (json 200 JOk), s')
    ∧ (unlink_fails e = false → file_path doc ≠ EmptyString →
       files s' = delete (path_join __dirname (file_path doc)) (files s))
    ∧ (∀ p, p ≠ path_join __dirname (file_path doc) →
            files s' !! p = files s !! p)
    ∧ ∀ e' header' user',
        db_ready e' s = true →
        authMiddleware e' header' s = (inr (inr user'), s) →
        serve e' (DeleteDocument header' id) s'
        = (Responded (json 404 (JError "not found")), s').
Proof.
  intros Hr Hauth Hdoc Hown.
  rewrite (delete_route_run e header user), Hdoc by done.
  rewrite bool_decide_eq_false_2 by (by intros []).
  eexists. split; [done|].
  destruct (after_cleanup_frame e doc s) as (Hpool & Htables & _).
  split_and!.
  - intros Hunlink Hpath. simpl. unfold after_cleanup.
    rewrite bool_decide_eq_true_2, Hunlink by done.
    destruct (files s !! _) eqn:Hfile; [done|]. by rewrite delete_id.
  - intros p Hp. simpl. unfold after_cleanup.
    repeat case_match; try done. simpl. by rewrite lookup_delete_ne.
  - intros e' header' user' Hr' Hauth'.
    set (s' := set_documents _ _ _).
    apply (authMiddleware_any_state _ _ _ s') in Hauth'.
    assert (Hr'' : db_ready e' s' = true).
    { unfold db_ready in *. unfold s'. simpl. by rewrite Hpool, Htables. }
    rewrite (delete_route_run e' header' user') by done.
    unfold s' at 1. simpl. by rewrite lookup_delete_eq.
Qed.

Lemma deleted_is_gone_witness :
  ∃ s',
    serve (P := Demo.platform) (Demo.at_time 80000)
      (DeleteDocument (Some ("Bearer " +:+ Demo.ann_token)) 1) Demo.library
    = (Responded (json 200 JOk), s')
    ∧ files s' !! "/srv/app/uploads/20000-7.pdf" = None
    ∧ serve (P := Demo.platform) (Demo.at_time 85000)
        (DeleteDocument (Some ("Bearer " +:+ Demo.bob_token)) 1) s'
      = (Responded (json 404 (JError "not found")), s').
Proof.
  destruct (deleted_is_gone (P := Demo.platform) (Demo.at_time 80000)
              (Some ("Bearer " +:+ Demo.ann_token))
              (jwt_claims (Demo.at_time 100000) 1 "ann@x.com")
              1 Demo.report Demo.library)
    as (s' & Hserve & Hblob & _ & Hagain); [vm_compute; reflexivity..|].
  exists s'. split; [exact Hserve|]. split.
  - rewrite Hblob; [|reflexivity|discriminate]. vm_compute. reflexivity.
  - apply (Hagain (Demo.at_time 85000) _
             (jwt_claims (Demo.at_time 100000) 2 "bob@x.com"));
      vm_compute; reflexivity.
Defined.

(** ** Health, and answers in general *)

(** X14.  The health check is always answered 200 with [ok: true] and
    changes nothing; it reports the database as connected exactly when the
    pool is set and the database answers the ping, whether or not the tables
    exist, and it carries an error text exactly when it reports the database
    as not connected. *)
Theorem health_reports {P : Platform} e s :
  ∃ connected error,
    serve e GetHealth s
    = (Responded (json 200 (JHealth true (Some connected) error)), s)
    ∧ (connected = true ↔ is_Some (pool s) ∧ db_reachable e = true)
    ∧ (error = None ↔ connected = true).
Proof.
  unfold serve, route. rewrite health_run.
  destruct (pool s) as [p|]; [destruct (db_reachable e)|];
    eexists _, _; (split; [done|]); split; split;
    try done; try (by intros [[] ?]); try (by intros [? ?]); eauto.
Qed.

(** X15.  Every request is answered in every state: no exception leaves a
    handler.  No request sets or clears the pool or creates or drops the
    tables, and the two counters never go down. *)
Theorem every_request_is_answered {P : Platform} e r s :
  ∃ response s',
    serve e r s = (Responded response, s')
    ∧ pool s' = pool s
    ∧ tables_exist s' = tables_exist s
    ∧ next_user_id s ≤ next_user_id s'
    ∧ next_document_id s ≤ next_document_id s'.
Proof.
  destruct (serve_users e r s)
    as (response & s' & Hserve & Hpool & Htables & Husers).
  pose proof (serve_documents e r s) as Hdocs. rewrite Hserve in Hdocs.
  simpl in Hdocs. exists response, s'. split_and!; [done..| |].
  - destruct Husers as [[_ ->]|(row & _ & ->)]; lia.
  - destruct Hdocs as [[_ ->]|[(row & _ & ->)|(i & d & o & _ & _ & _ & ->)]];
      lia.
Qed.

(** ** The gate, exactly *)

Lemma split_one sep s b :
  split sep s = [b] → s = b ∧ contains_char sep b = false.
Proof.
  revert b. induction s as [|c s IH]; intros b; simpl.
  - intros [= <-]. done.
  - pose proof (split_nonempty sep s) as Hne.
    case_decide as Hc; [by intros [= <- ?]|].
    destruct (split sep s) as [|p ps] eqn:Hs; [done|].
    intros [= <- ->]. destruct (IH p eq_refl) as [-> Hp]. split; [done|].
    by apply contains_char_cons.
Qed.

Lemma split_two sep s a b :
  split sep s = [a; b] →
  s = a +:+ String sep b
  ∧ contains_char sep a = false ∧ contains_char sep b = false.
Proof.
  revert a. induction s as [|c s IH]; intros a; simpl; [done|].
  case_decide as Hc.
  - intros [= <- Hs]. apply split_one in Hs as [-> Hb]. by subst.
  - destruct (split sep s) as [|p ps] eqn:Hs; [done|].
    intros [= <- ->]. destruct (IH p eq_refl) as (-> & Hp & Hb).
    split_and!; [done| |done]. by apply contains_char_cons.
Qed.

(** X16.  The gate lets a request through, as the user of a payload,
    exactly when the header is one word, one space and a token without
    spaces, the token decodes under the secret to that payload, and the
    clock has not reached the expiry of the payload.  The word before the
    space is not looked at. *)
Theorem gate_accepts_exactly {P : Platform} e header s user :
  authMiddleware e header s = (inr (inr user), s) ↔
  ∃ scheme token,
    header = Some (scheme +:+ " " +:+ token)
    ∧ contains_char " " scheme = false
    ∧ contains_char " " token = false
    ∧ jwt_decode token JWT_SECRET = Some user
    ∧ now_s e < jwt_exp user.
Proof.
  split.
  - destruct (truthy header) eqn:Hh;
      [|by rewrite authMiddleware_missing by done].
    destruct (decide (length (split " "%char (default EmptyString header))
                      = 2%nat)) as [Hl|Hl];
      [|by rewrite authMiddleware_bad by done].
    rewrite authMiddleware_verify by done. unfold bearer_token.
    destruct header as [h|]; [|done]. simpl in *.
    destruct (split " " h) as [|scheme [|token [|]]] eqn:Hsplit; try done.
    apply split_two in Hsplit as (-> & Hscheme & Htoken). simpl.
    destruct (jwt_decode token JWT_SECRET) as [payload|] eqn:Hdecode; [|done].
    case_bool_decide as Hexp; [done|]. intros [= <-].
    exists scheme, token. split_and!; [done..|]. lia.
  - intros (scheme & token & -> & Hscheme & Htoken & Hdecode & Hexp).
    assert (Hparts : split " " (scheme +:+ " " +:+ token) = [scheme; token])
      by by apply split_scheme_token.
    rewrite authMiddleware_verify; [|by destruct scheme|by simpl; rewrite Hparts].
    unfold bearer_token. simpl. rewrite Hparts. simpl. rewrite Hdecode.
    by rewrite bool_decide_eq_false_2 by lia.
Qed.

(** An instance: Ann's token behind the word [Basic]. *)
Lemma gate_accepts_exactly_witness :
  authMiddleware (P := Demo.platform) (Demo.at_time 200000)
    (Some ("Basic" +:+ " " +:+ Demo.ann_token)) Demo.library
  = (inr (inr (jwt_claims (Demo.at_time 100000) 1 "ann@x.com")), Demo.library).
Proof.
  apply (gate_accepts_exactly (P := Demo.platform)).
  exists "Basic", Demo.ann_token.
  split_and!; [reflexivity|vm_compute; reflexivity..|vm_compute; reflexivity].
Defined.

(** ** Listing after an upload *)

(** X17.  After an upload that was answered 200, the listing of the same
    user holds the new row, under the id that the counter showed, together
    with every document the user had before. *)
Theorem upload_then_listed {P : Platform}
    e header user file name type date s e' header' user' :
  authMiddleware e header s = (inr (inr user), s) →
  authMiddleware e' header' s = (inr (inr user'), s) →
  jwt_id user' = jwt_id user →
  disk_write_fails e = false →
  db_ready e s = true →
  db_ready e' s = true →
  is_Some (users s !! jwt_id user) →
  well_formed s = true →
  ∃ row s1 rows,
    serve e (PostUpload header (Some file) name type date) s
    = (Responded (json 200 JOk), s1)
    ∧ serve e' (GetMydocs header') s1
      = (Responded (json 200 (JDocuments rows)), s1)
    ∧ (next_document_id s, row) ∈ rows
    ∧ original_filename row = originalname file
    ∧ ∀ id d, documents s !! id = Some d →
              user_id d = Some (jwt_id user) → (id, d) ∈ rows.
Proof.
  intros Hauth Hauth' Hsame Hdisk Hr Hr' [owner Howner] Hwf.
  destruct (well_formed_fresh s Hwf) as [_ Hnew].
  rewrite (upload_route_run e header user) by done.
  rewrite upload_steps_run, Hdisk, Hr, Howner. cbv zeta.
  exists (uploaded_row e user file name type date). eexists _, _.
  split; [done|].
  set (s1 := set_documents _ _ _).
  apply (authMiddleware_any_state _ _ _ s1) in Hauth'.
  unfold serve, route.
  rewrite (authenticated_accepted _ _ _ _ _ Hauth'), mydocs_run by done.
  split; [done|]. split_and!.
  - rewrite merge_sort_Permutation, list_elem_of_filter, elem_of_map_to_list.
    unfold s1. simpl. rewrite lookup_insert_eq, Hsame. done.
  - done.
  - intros id d Hd Hown.
    rewrite merge_sort_Permutation, list_elem_of_filter, elem_of_map_to_list.
    unfold s1. simpl. rewrite Hsame. split; [done|].
    rewrite lookup_insert_ne; [done|]. congruence.
Qed.

Lemma upload_then_listed_witness :
  ∃ row s1 rows,
    serve (P := Demo.platform) (Demo.at_time 90000)
      (PostUpload (Some ("Bearer " +:+ Demo.bob_token))
         (Some {| originalname := "Minutes.DOCX"; content := "PK" |})
         None None None) Demo.library
    = (Responded (json 200 JOk), s1)
    ∧ serve (P := Demo.platform) (Demo.at_time 95000)
        (GetMydocs (Some ("Bearer " +:+ Demo.bob_token))) s1
      = (Responded (json 200 (JDocuments rows)), s1)
    ∧ (4, row) ∈ rows
    ∧ original_filename row = "Minutes.DOCX".
Proof.
  destruct (upload_then_listed (P := Demo.platform) (Demo.at_time 90000)
              (Some ("Bearer " +:+ Demo.bob_token))
              (jwt_claims (Demo.at_time 100000) 2 "bob@x.com")
              {| originalname := "Minutes.DOCX"; content := "PK" |}
              None None None Demo.library (Demo.at_time 95000)
              (Some ("Bearer " +:+ Demo.bob_token))
              (jwt_claims (Demo.at_time 100000) 2 "bob@x.com"))
    as (row & s1 & rows & Hup & Hlist & Hin & Hname & _);
    [vm_compute; reflexivity|vm_compute; reflexivity|reflexivity
    |reflexivity|vm_compute; reflexivity|vm_compute; reflexivity
    |eexists; vm_compute; reflexivity|vm_compute; reflexivity|].
  exists row, s1, rows. auto.
Defined.

(** ** Generated names *)

Lemma pretty_N_char_digit x : digit_char (pretty_N_char x).
Proof.
  unfold pretty_N_char, digit_char. repeat case_match; by_evaluation.
Qed.

Lemma pretty_N_go_digits x s c :
  c ∈ list_ascii_of_string (pretty_N_go x s) →
  digit_char c ∨ c ∈ list_ascii_of_string s.
Proof.
  revert s. induction (N.lt_wf_0 x) as [x _ IH]; intros s.
  assert (x = 0 ∨ 0 < x)%N as [->|Hx] by lia.
  - rewrite pretty_N_go_0. auto.
  - rewrite pretty_N_go_step by done. intros Hc.
    apply IH in Hc as [Hc|Hc]; [by left| |by apply N.div_lt].
    simpl in Hc. apply elem_of_cons in Hc as [->|Hc]; [|by right].
    left. apply pretty_N_char_digit.
Qed.

(** [String(n)] of a number that is not negative is made of digits. *)
Lemma String_of_int_digits n c :
  0 ≤ n → c ∈ list_ascii_of_string (String_of_int n) → digit_char c.
Proof.
  unfold String_of_int, pretty, pretty_Z. destruct n as [|x|x]; [| |lia].
  - intros _ [->|[]%elem_of_nil]%elem_of_cons. unfold digit_char.
    by_evaluation.
  - intros _. unfold pretty, pretty_positive, pretty, pretty_N.
    case_decide; [done|]. intros [Hc|[]%elem_of_nil]%pretty_N_go_digits. done.
Qed.

(** A run of digits at the head of a text is determined by the text, when
    what follows the run does not start with a digit. *)
Lemma digits_prefix a a' r r' :
  (∀ c, c ∈ list_ascii_of_string a → digit_char c) →
  (∀ c, c ∈ list_ascii_of_string a' → digit_char c) →
  starts_plain r → starts_plain r' →
  a +:+ r = a' +:+ r' → a = a' ∧ r = r'.
Proof.
  revert a'. induction a as [|x a IH]; intros [|x' a'] Ha Ha' Hr Hr'.
  - done.
  - change (r = String x' (a' +:+ r') → "" = String x' a' ∧ r = r').
    intros ->. destruct Hr. apply Ha'. left.
  - change (String x (a +:+ r) = r' → String x a = "" ∧ r = r').
    intros <-. destruct Hr'. apply Ha. left.
  - change (String x (a +:+ r) = String x' (a' +:+ r')
            → String x a = String x' a' ∧ r = r').
    intros [= <- Heq]. apply IH in Heq as [-> ->]; [done| | |done..].
    + intros c Hc. apply Ha. by right.
    + intros c Hc. apply Ha'. by right.
Qed.

Lemma from_last_head sep s r :
  from_last sep s = Some r → ∃ r', r = String sep r'.
Proof.
  revert r. induction s as [|c s IH]; [done|]. simpl. intros r.
  destruct (from_last sep s) as [r0|].
  - intros [= <-]. eauto.
  - case_decide as Hc; [|done]. intros [= <-]. subst. eauto.
Qed.

Lemma extname_starts_plain p : starts_plain (extname p).
Proof.
  unfold extname.
  destruct (from_last "." (after_last "/" (strip_trailing "/" p)))
    as [ext|] eqn:Hext; [|done].
  apply from_last_head in Hext as [ext' ->].
  repeat case_match; try done. simpl. unfold digit_char. by_evaluation.
Qed.

(** X18.  The generated name of a stored file determines the clock reading
    and the random draw it was made from, and the extension: two uploads
    get the same name only when both numbers coincide and the uploaded names
    have the same extension. *)
Theorem generated_names_differ e file e' file' :
  0 ≤ now_ms e → 0 ≤ random e → 0 ≤ now_ms e' → 0 ≤ random e' →
  filename e file = filename e' file' →
  now_ms e = now_ms e'
  ∧ random e = random e'
  ∧ extname (originalname file) = extname (originalname file').
Proof.
  intros Hms Hrnd Hms' Hrnd'. unfold filename.
  rewrite !append_assoc. intros Heq.
  apply digits_prefix in Heq as [Hclock Heq];
    [|by intros c; apply String_of_int_digits..
     |simpl; unfold digit_char; by_evaluation
     |simpl; unfold digit_char; by_evaluation].
  apply (inj pretty) in Hclock.
  assert (Htail : String_of_int (random e) +:+ extname (originalname file)
                  = String_of_int (random e')
                    +:+ extname (originalname file')).
  { change ("-" +:+ ?x) with (String "-" x) in Heq. by injection Heq. }
  apply digits_prefix in Htail as [Hdraw Hext];
    [|by intros c; apply String_of_int_digits..
     |apply extname_starts_plain|apply extname_starts_plain].
  apply (inj pretty) in Hdraw. done.
Qed.

Lemma generated_names_differ_witness :
  now_ms (Demo.at_time 90000) = now_ms (Demo.disk_refuses 90000)
  ∧ random (Demo.at_time 90000) = random (Demo.disk_refuses 90000)
  ∧ extname "Minutes.DOCX" = extname "notes.v2.DOCX".
Proof.
  apply (generated_names_differ (Demo.at_time 90000)
           {| originalname := "Minutes.DOCX"; content := "PK" |}
           (Demo.disk_refuses 90000)
           {| originalname := "notes.v2.DOCX"; content := "" |});
    vm_compute; congruence.
Defined.

(** ** A token whose user is gone *)

(** X19.  Tokens are not revoked with their user.  Once the user row of a
    valid token has been removed by hand, the gate still lets the token
    through: the listing answers 200 with no rows, every delete request is
    refused with 403 or 404, and an upload stores its blob but is answered
    500 without adding a row. *)
Theorem token_outlives_user {P : Platform} e header user s :
  authMiddleware e header s = (inr (inr user), s) →
  db_ready e s = true →
  let s' := admin_delete_user (jwt_id user) s in
  serve e (GetMydocs header) s' = (Responded (json 200 (JDocuments [])), s')
  ∧ (∀ id, ∃ response,
       serve e (DeleteDocument header id) s' = (Responded response, s')
       ∧ (response = json 403 (JError "forbidden")
          ∨ response = json 404 (JError "not found")))
  ∧ (∀ file name type date,
       disk_write_fails e = false →
       ∃ s'', serve e (PostUpload header (Some file) name type date) s'
              = (Responded (json 500 (JError "upload failed")), s'')
              ∧ documents s'' = documents s'
              ∧ files s'' !! path_join UPLOAD_DIR (filename e file)
                = Some (content file)).
Proof.
  intros Hauth Hr s'.
  apply (authMiddleware_any_state _ _ _ s') in Hauth.
  assert (Hr' : db_ready e s' = true) by done.
  assert (Hnone : ∀ id d, documents s' !! id = Some d →
                          user_id d ≠ Some (jwt_id user)).
  { intros id d. unfold s', admin_delete_user. simpl. rewrite lookup_fmap.
    destruct (documents s !! id) as [d0|]; [|done]. simpl.
    intros [= <-]. by case_bool_decide. }
  split_and!.
  - unfold serve, route.
    rewrite (authenticated_accepted _ _ _ _ _ Hauth), mydocs_run by done.
    destruct (filter _ _) as [|[id d] rows] eqn:Hrows; [done|].
    assert (Hin : (id, d) ∈ filter
                    (λ r : Z * document, user_id r.2 = Some (jwt_id user))
                    (map_to_list (documents s'))) by (rewrite Hrows; left).
    apply list_elem_of_filter in Hin as [Hown Hin%elem_of_map_to_list].
    by apply Hnone in Hin.
  - intros id. rewrite (delete_route_run e header user) by done.
    destruct (documents s' !! id) as [d|] eqn:Hd; [|by eauto].
    rewrite bool_decide_eq_true_2 by eauto. eauto.
  - intros file name type date Hdisk.
    rewrite (upload_route_run e header user) by done.
    rewrite upload_steps_run, Hdisk, Hr'. cbv zeta.
    assert (Hgone : users s' !! jwt_id user = None)
      by apply lookup_delete_eq.
    rewrite Hgone. eexists. split; [done|]. simpl. split; [done|].
    apply lookup_insert_eq.
Qed.

Lemma token_outlives_user_witness :
  let s' := admin_delete_user 1 Demo.library in
  serve (P := Demo.platform) (Demo.at_time 200000)
    (GetMydocs (Some ("Bearer " +:+ Demo.ann_token))) s'
  = (Responded (json 200 (JDocuments [])), s')
  ∧ ∃ response,
      serve (P := Demo.platform) (Demo.at_time 200000)
        (DeleteDocument (Some ("Bearer " +:+ Demo.ann_token)) 1) s'
      = (Responded response, s')
      ∧ (response = json 403 (JError "forbidden")
         ∨ response = json 404 (JError "not found")).
Proof.
  destruct (token_outlives_user (P := Demo.platform) (Demo.at_time 200000)
              (Some ("Bearer " +:+ Demo.ann_token))
              (jwt_claims (Demo.at_time 100000) 1 "ann@x.com") Demo.library)
    as (Hlist & Hdelete & _); [vm_compute; reflexivity..|].
  intros s'. split; [exact Hlist|]. exact (Hdelete 1).
Defined.

(** ** Wildcards in the search text *)

Lemma like_percents text : like "%%%" text = true.
Proof.
  rewrite like_percent_cons.
  replace (like "%%" text) with true; [done|].
  rewrite like_percent_cons. by rewrite like_percent.
Qed.

(** X20.  A search text that is one percent sign restricts nothing, and
    neither does an empty one: each is answered like a search without
    text. *)
Theorem wildcard_q_lists_all {P : Platform} e type date s :
  serve e (GetSearch (Some "%") type date) s
  = serve e (GetSearch None type date) s
  ∧ serve e (GetSearch (Some "") type date) s
    = serve e (GetSearch None type date) s.
Proof.
  split; [|done].
  unfold serve, route. destruct (db_ready e s) eqn:Hr;
    [|by rewrite !search_not_ready by done].
  unfold search, try_catch, bind. rewrite !pool_query_ready by done.
  unfold select_search.
  rewrite (list_filter_iff
             (λ r : Z * document,
                forallb (holds r.2) (search_conditions (Some "%") type date)
                = true)
             (λ r : Z * document,
                forallb (holds r.2) (search_conditions None type date)
                = true)); [done|].
  intros [id d]. unfold search_conditions.
  simpl. change ("%" +:+ "%" +:+ "%") with "%%%".
  by rewrite like_percents.
Qed.
